(** * Remote worker lifecycle and artifact exchange: a shallow embedding

    The development follows [src/runpod/manager.py] (RunPodManager) and
    [src/runpod/utils.py].  Python [str] values are sequences of code
    points, [bytes] are lists of [Byte.byte]; the network, the control
    plane, the clock and the local file system are an environment that
    answers every request as a function of the history of requests made
    so far. *)

From Stdlib Require Import List ZArith NArith Lia Bool String Ascii.
From Stdlib Require Import Strings.Byte DecimalString.
From Stdlib Require Import Permutation Sorted.
Import ListNotations.

Set Implicit Arguments.

(* ===================================================================== *)
(** ** Python strings *)
(* ===================================================================== *)

Module PyStr.

Local Open Scope N_scope.

(** A [str] is a sequence of Unicode code points. *)
Definition pystr := list N.

(** ASCII literal of the source, as code points. *)
Definition py (s : string) : pystr :=
  List.map N_of_ascii (list_ascii_of_string s).

Definition eqb (a b : pystr) : bool :=
  if list_eq_dec N.eq_dec a b then true else false.

(** Code points [str.strip()] removes: those for which [str.isspace]
    holds (CPython's whitespace table). *)
Definition is_space (c : N) : bool :=
  ((9 <=? c) && (c <=? 13)) || ((28 <=? c) && (c <=? 32))
  || (c =? 133) || (c =? 160) || (c =? 5760)
  || ((8192 <=? c) && (c <=? 8202))
  || (c =? 8232) || (c =? 8233) || (c =? 8239) || (c =? 8287)
  || (c =? 12288).

Fixpoint lstrip (s : pystr) : pystr :=
  match s with
  | [] => []
  | c :: t => if is_space c then lstrip t else s
  end.

Definition rstrip (s : pystr) : pystr := rev (lstrip (rev s)).

(** [s.strip()] *)
Definition strip (s : pystr) : pystr := rstrip (lstrip s).

(** [s.startswith(p)] *)
Fixpoint startswith (p s : pystr) : bool :=
  match p, s with
  | [], _ => true
  | _ :: _, [] => false
  | a :: p', b :: s' => (a =? b) && startswith p' s'
  end.

(** [sub in s] *)
Fixpoint contains (sub s : pystr) : bool :=
  startswith sub s ||
  match s with
  | [] => false
  | _ :: t => contains sub t
  end.

(** [s.replace(old, new)] for a one-character [old], the only use the
    source makes of it. *)
Definition replace (old : N) (new s : pystr) : pystr :=
  flat_map (fun c => if c =? old then new else [c]) s.

(** Line boundaries of [str.splitlines]. *)
Definition is_linebreak (c : N) : bool :=
  ((10 <=? c) && (c <=? 13)) || ((28 <=? c) && (c <=? 30))
  || (c =? 133) || (c =? 8232) || (c =? 8233).

(** [s.splitlines()[0]] for a non-empty [s] that does not start with a
    line boundary (the source applies it to stripped, non-empty text). *)
Fixpoint first_line (s : pystr) : pystr :=
  match s with
  | [] => []
  | c :: t => if is_linebreak c then [] else c :: first_line t
  end.

(** [Path(s).name] for a path whose last component is an ordinary file
    name: the text after the last slash. *)
Fixpoint path_name (s : pystr) : pystr :=
  match s with
  | [] => []
  | c :: t => if contains [47] t then path_name t
              else if c =? 47 then t else s
  end.

(** The quoting step [s.replace("'", "'\\''")]. *)
Definition quote_escape (s : pystr) : pystr :=
  replace 39 (py "'\''") s.

End PyStr.
Import PyStr.

(* ===================================================================== *)
(** ** Retention manager: [prune_local_batches] *)
(* ===================================================================== *)

Module Retention.

(** One child of the base directory as [Path.iterdir] yields it.
    [rm_fails] records whether [shutil.rmtree] on it meets an error
    (permissions, a symbolic link to a directory, ...). *)
Record DirEntry := {
  name : pystr;
  is_dir : bool;
  st_mtime : Z;
  rm_fails : bool
}.

(** What [local_base_dir] names on disk. *)
Inductive Node :=
| Missing
| RegularFile
| Directory (entries : list DirEntry).

Inductive Outcome (A : Type) :=
| Ret (a : A)
| Raise (what : string).
Arguments Raise {A} what.

(** [p.is_dir() and p.name.startswith("batch_")] *)
Definition is_candidate (p : DirEntry) : bool :=
  is_dir p && startswith (py "batch_") (name p).

Definition candidates_of (es : list DirEntry) : list DirEntry :=
  filter is_candidate es.

(** [list.sort(key=st_mtime, reverse=True)]: stable, newest first. *)
Fixpoint insert_desc (x : DirEntry) (l : list DirEntry) : list DirEntry :=
  match l with
  | [] => [x]
  | y :: l' =>
      if (st_mtime y <=? st_mtime x)%Z then x :: l
      else y :: insert_desc x l'
  end.

Definition sort_newest_first (l : list DirEntry) : list DirEntry :=
  fold_right insert_desc [] l.

(** [candidates[keep:] if keep >= 0 else []] *)
Definition to_remove (sorted : list DirEntry) (keep : Z) : list DirEntry :=
  if (keep >=? 0)%Z then skipn (Z.to_nat keep) sorted else [].

(** [shutil.rmtree(path, ignore_errors=...)] on the listing. *)
Definition rmtree (path : DirEntry) (ignore_errors : bool)
    (es : list DirEntry) : Outcome unit * list DirEntry :=
  if rm_fails path then
    if ignore_errors then (Ret tt, es)
    else (Raise "OSError", es)
  else (Ret tt, filter (fun e => negb (eqb (name e) (name path))) es).

(** The removal loop: [try: rmtree(...); removed += 1 / except: pass]. *)
Fixpoint remove_loop (paths : list DirEntry) (removed : nat)
    (es : list DirEntry) : nat * list DirEntry :=
  match paths with
  | [] => (removed, es)
  | path :: rest =>
      match rmtree path true es with
      | (Ret _, es') => remove_loop rest (S removed) es'
      | (Raise _, es') => remove_loop rest removed es'
      end
  end.

Definition prune_local_batches (base : Node) (keep : Z)
    : Outcome nat * Node :=
  match base with
  | Missing => (Ret 0, Missing)
  | RegularFile => (Raise "NotADirectoryError", RegularFile)
  | Directory es =>
      let candidates := sort_newest_first (candidates_of es) in
      let '(removed, es') := remove_loop (to_remove candidates keep) 0 es in
      (Ret removed, Directory es')
  end.

(** [a] may stand before [b] once sorted newest first. *)
Definition not_older (a b : DirEntry) : Prop :=
  (st_mtime b <= st_mtime a)%Z.

(** [shutil.rmtree] can delete [p]. *)
Definition deletable (p : DirEntry) : bool := negb (rm_fails p).

(** Some path of [paths] bears the name of [e]. *)
Definition named_in (paths : list DirEntry) (e : DirEntry) : bool :=
  existsb (fun p => eqb (name e) (name p)) paths.

(** A batch directory that can be deleted, and one that cannot. *)
Definition batch_dir (n : string) (mtime : Z) : DirEntry :=
  {| name := py n; is_dir := true; st_mtime := mtime; rm_fails := false |}.

Definition stuck_dir (n : string) (mtime : Z) : DirEntry :=
  {| name := py n; is_dir := true; st_mtime := mtime; rm_fails := true |}.

Definition five_batches : list DirEntry :=
  [ batch_dir "batch_20240103_101500" 1704276900;
    batch_dir "batch_20240101_090000" 1704099600;
    {| name := py "notes.txt"; is_dir := false; st_mtime := 1704300000;
       rm_fails := false |};
    batch_dir "batch_20240105_120000" 1704456000;
    batch_dir "batch_20240102_083000" 1704184200;
    batch_dir "batch_20240104_174500" 1704390300 ].

End Retention.

(* ===================================================================== *)
(** ** [bytes.decode('utf-8')] *)
(* ===================================================================== *)

Module Utf8.

Local Open Scope N_scope.

Definition continuation (b : N) : bool := (128 <=? b) && (b <=? 191).

(** Strict decoding: shortest form only, no surrogates, nothing above
    U+10FFFF.  [None] stands for [UnicodeDecodeError]. *)
Fixpoint decode_points (bs : list N) : option pystr :=
  match bs with
  | [] => Some []
  | b0 :: r0 =>
      if b0 <? 128 then option_map (cons b0) (decode_points r0)
      else if (194 <=? b0) && (b0 <=? 223) then
        match r0 with
        | b1 :: r1 =>
            if continuation b1
            then option_map (cons ((b0 - 192) * 64 + (b1 - 128)))
                            (decode_points r1)
            else None
        | _ => None
        end
      else if (224 <=? b0) && (b0 <=? 239) then
        match r0 with
        | b1 :: b2 :: r2 =>
            if ((if b0 =? 224 then 160 else 128) <=? b1)
               && (b1 <=? (if b0 =? 237 then 159 else 191))
               && continuation b2
            then option_map
                   (cons ((b0 - 224) * 4096 + (b1 - 128) * 64 + (b2 - 128)))
                   (decode_points r2)
            else None
        | _ => None
        end
      else if (240 <=? b0) && (b0 <=? 244) then
        match r0 with
        | b1 :: b2 :: b3 :: r3 =>
            if ((if b0 =? 240 then 144 else 128) <=? b1)
               && (b1 <=? (if b0 =? 244 then 143 else 191))
               && continuation b2 && continuation b3
            then option_map
                   (cons ((b0 - 240) * 262144 + (b1 - 128) * 4096
                          + (b2 - 128) * 64 + (b3 - 128)))
                   (decode_points r3)
            else None
        | _ => None
        end
      else None
  end.

Definition utf8_decode (raw : list byte) : option pystr :=
  decode_points (List.map Byte.to_N raw).

(** ASCII text as the bytes a remote process writes. *)
Definition ascii_bytes (s : string) : list byte :=
  List.map byte_of_ascii (list_ascii_of_string s).

End Utf8.
Import Utf8.

(* ===================================================================== *)
(** ** The environment, the world and the manager *)
(* ===================================================================== *)

Module Remote.

(** A Python exception, reduced to the text [str(e)] renders. *)
Inductive Exn := Exception (msg : pystr).

Definition str_of (e : Exn) : pystr := let 'Exception m := e in m.

(** What an external call gives back. *)
Inductive Reply (A : Type) :=
| Fine (a : A)
| Throws (e : Exn).
Arguments Throws {A} e.

(** [RunPodConfig], the fields the manager reads. *)
Record Config := {
  pod_id : pystr;
  api_key : option pystr;
  ssh_host : option pystr;
  ssh_port : option Z;
  ssh_user : pystr;
  ssh_key_path : pystr
}.

Definition truthy_str (o : option pystr) : bool :=
  match o with
  | Some (_ :: _) => true
  | _ => false
  end.

Definition truthy_int (o : option Z) : bool :=
  match o with
  | Some n => negb (n =? 0)%Z
  | None => false
  end.

(** The dataclass [PodStatus]. *)
Record PodStatus := {
  ps_pod_id : pystr;
  ps_status : pystr;
  ps_ssh_host : option pystr;
  ps_ssh_port : option Z;
  ps_is_running : bool
}.

(** The three GraphQL operations of the control plane. *)
Inductive ApiOp := Describe | Start | Stop.

(** The object selected from a GraphQL reply ([pod], [podStart],
    [podStop]), taken to be a JSON object as the schema has it;
    [runtime] is the truthiness of its [runtime] field. *)
Record Payload := { runtime : bool }.

Inductive JsonBody :=
| JsonInvalid (e : Exn)            (* [response.json()] raises *)
| JsonData (field : option Payload).
    (* the selected object when [data['data']] holds a truthy one *)

Inductive HttpReply :=
| HttpRaise (e : Exn)              (* [requests.post] raises *)
| HttpResponse (status_code : Z) (body : JsonBody).

(** [Path(parent) / leaf] on the local machine. *)
Record LocalPath := { parent : pystr; leaf : pystr }.

Inductive LocalOp :=
| Mkdir (target : LocalPath)                 (* mkdir(parents, exist_ok) *)
| Extract (archive : pystr) (target : LocalPath)
| Exists (path : pystr)
| Unlink (path : pystr)
| MkTemp                                     (* NamedTemporaryFile *)
| TarCreate (archive source : pystr).

(** What the process asks of the outside. *)
Inductive Event :=
| EvProbe                          (* connect (timeout 10) and close *)
| EvSshConnect (timeout : nat)
| EvExec (command : pystr)
| EvSshClose
| EvHttpPost (op : ApiOp)
| EvScpUpload (local_path remote_path : pystr)
| EvScpDownload (remote_path local_path : pystr)
| EvSleep (seconds : nat)
| EvLocal (op : LocalOp).

(** The outside world: each answer is a function of the history, newest
    request first. *)
Record Env := {
  ssh_connect : list Event -> option Exn;
  ssh_exec : list Event -> option Exn;
  chan_stdout : list Event -> Reply (list byte);
  chan_stderr : list Event -> Reply (list byte);
  chan_status : list Event -> Reply Z;
  http_post : list Event -> HttpReply;
  scp_run : list Event -> Reply Z;           (* return code of scp *)
  local_raises : list Event -> option Exn;
  local_test : list Event -> bool;
  temp_name : list Event -> pystr;
  elapsed : list Event -> nat;               (* seconds the request took *)
  strftime : nat -> pystr;                   (* '%Y%m%d_%H%M%S' *)
  decode_error : list byte -> pystr          (* text of UnicodeDecodeError *)
}.

(** Process state: the history (newest request first), the wall clock
    in seconds, and [manager.current_pod]. *)
Record World := {
  trace : list Event;
  now : nat;
  current_pod : option PodStatus
}.

Inductive Outcome (A : Type) :=
| Ret (a : A)
| Raise (e : Exn)
| OutOfFuel.
Arguments Raise {A} e.
Arguments OutOfFuel {A}.

Definition M (A : Type) := World -> Outcome A * World.

Definition ret {A} (a : A) : M A := fun w => (Ret a, w).

Definition bind {A B} (c : M A) (k : A -> M B) : M B :=
  fun w =>
    match c w with
    | (Ret a, w') => k a w'
    | (Raise e, w') => (Raise e, w')
    | (OutOfFuel, w') => (OutOfFuel, w')
    end.

Definition raise {A} (e : Exn) : M A := fun w => (Raise e, w).

(** [try: body / except Exception as e: handler] *)
Definition try_except {A} (body : M A) (handler : Exn -> M A) : M A :=
  fun w =>
    match body w with
    | (Raise e, w') => handler e w'
    | r => r
    end.

(** [try: body / finally: cleanup] *)
Definition try_finally {A} (body : M A) (cleanup : M unit) : M A :=
  fun w =>
    match body w with
    | (OutOfFuel, w') => (OutOfFuel, w')
    | (r, w') =>
        match cleanup w' with
        | (Ret _, w'') => (r, w'')
        | (Raise e, w'') => (Raise e, w'')
        | (OutOfFuel, w'') => (OutOfFuel, w'')
        end
    end.

Declare Scope py_scope.
Delimit Scope py_scope with py.
Notation "x <- c ;; k" := (bind c (fun x => k))
  (at level 61, c at next level, right associativity) : py_scope.
Notation "c ;; k" := (bind c (fun _ => k))
  (at level 61, right associativity) : py_scope.
Local Open Scope py_scope.

Definition of_reply {A} (r : Reply A) : M A :=
  match r with
  | Fine a => ret a
  | Throws e => raise e
  end.

Definition of_failure (r : option Exn) : M unit :=
  match r with
  | None => ret tt
  | Some e => raise e
  end.

Definition clock : M nat := fun w => (Ret (now w), w).

Definition set_current_pod (p : option PodStatus) : M unit :=
  fun w => (Ret tt, {| trace := trace w; now := now w; current_pod := p |}).

Definition get_current_pod : M (option PodStatus) :=
  fun w => (Ret (current_pod w), w).

(** [(success, stdout, stderr)], the tuple [execute_ssh_command] returns. *)
Definition CommandResult := (bool * pystr * pystr)%type.

Definition cr_success (r : CommandResult) : bool := fst (fst r).
Definition cr_stdout (r : CommandResult) : pystr := snd (fst r).
Definition cr_stderr (r : CommandResult) : pystr := snd r.

Section Manager.

Variable cfg : Config.
Variable env : Env.

(** Issue a request: it joins the history and the clock advances by the
    time it took (plus [pause] for a sleep). *)
Definition request (e : Event) (pause : nat) : M (list Event) :=
  fun w =>
    let h := e :: trace w in
    (Ret h, {| trace := h;
               now := now w + pause + elapsed env h;
               current_pod := current_pod w |}).

(** The world once [e] has been asked. *)
Definition after (e : Event) (pause : nat) (w : World) : World :=
  snd (request e pause w).

(** [time.sleep(seconds)] *)
Definition sleep (seconds : nat) : M unit :=
  _ <- request (EvSleep seconds) seconds ;; ret tt.

(** [not host or not port] after the defaults from the configuration. *)
Definition no_connection_details : bool :=
  negb (truthy_str (ssh_host cfg)) || negb (truthy_int (ssh_port cfg)).

(** [RunPodManager.test_ssh_connection] *)
Definition test_ssh_connection : M bool :=
  if no_connection_details then ret false
  else
    try_except
      (h <- request EvProbe 0 ;;
       of_failure (ssh_connect env h) ;;
       ret true)
      (fun _ => ret false).

Definition decode (raw : list byte) : M pystr :=
  match utf8_decode raw with
  | Some s => ret s
  | None => raise (Exception (decode_error env raw))
  end.

(** [try: exit_status = recv_exit_status() / except: exit_status = 0] *)
Definition determine_exit_status (h : list Event) : M Z :=
  try_except (of_reply (chan_status env h)) (fun _ => ret 0%Z).

(** [RunPodManager.execute_ssh_command] *)
Definition execute_ssh_command (command : pystr) (timeout : nat)
    : M CommandResult :=
  if no_connection_details
  then ret (false, [], py "No SSH connection details available")
  else
    try_except
      (h <- request (EvSshConnect timeout) 0 ;;
       of_failure (ssh_connect env h) ;;
       h <- request (EvExec command) 0 ;;
       of_failure (ssh_exec env h) ;;
       raw_out <- of_reply (chan_stdout env h) ;;
       stdout_str <- decode raw_out ;;
       raw_err <- of_reply (chan_stderr env h) ;;
       stderr_str <- decode raw_err ;;
       exit_status <- determine_exit_status h ;;
       _ <- request EvSshClose 0 ;;
       ret ((exit_status =? 0)%Z, stdout_str, stderr_str))
      (fun e => ret (false, [], str_of e)).

(** [RunPodManager.upload_file] *)
Definition upload_file (local_path remote_path : pystr) : M bool :=
  if no_connection_details then ret false
  else
    try_except
      (h <- request (EvScpUpload local_path remote_path) 0 ;;
       returncode <- of_reply (scp_run env h) ;;
       ret (returncode =? 0)%Z)
      (fun _ => ret false).

(** [RunPodManager.download_file] *)
Definition download_file (remote_path local_path : pystr) : M bool :=
  if no_connection_details then ret false
  else
    try_except
      (h <- request (EvScpDownload remote_path local_path) 0 ;;
       returncode <- of_reply (scp_run env h) ;;
       ret (returncode =? 0)%Z)
      (fun _ => ret false).

(** One GraphQL POST; gives the selected object of a 200 reply, [None]
    for any other status or an empty selection. *)
Definition graphql (op : ApiOp) : M (option Payload) :=
  h <- request (EvHttpPost op) 0 ;;
  match http_post env h with
  | HttpRaise e => raise e
  | HttpResponse status_code body =>
      if (status_code =? 200)%Z then
        match body with
        | JsonInvalid e => raise e
        | JsonData field => ret field
        end
      else ret None
  end.

(** The stub [{"id": pod_id, "runtime": {"ports": []}}]: its [runtime]
    is a non-empty dict, hence truthy. *)
Definition stub_pod_info : Payload := {| runtime := true |}.

(** [RunPodManager.get_pod_info] *)
Definition get_pod_info : M (option Payload) :=
  try_except
    (if negb (truthy_str (api_key cfg)) then ret (Some stub_pod_info)
     else graphql Describe)
    (fun _ => ret None).

Definition mutate (op : ApiOp) : M bool :=
  try_except
    (if negb (truthy_str (api_key cfg)) then ret false
     else
       field <- graphql op ;;
       ret (match field with Some _ => true | None => false end))
    (fun _ => ret false).

(** [RunPodManager.start_pod] *)
Definition start_pod : M bool := mutate Start.

(** [RunPodManager.stop_pod] *)
Definition stop_pod : M bool := mutate Stop.

Definition running_status : PodStatus :=
  {| ps_pod_id := pod_id cfg;
     ps_status := py "RUNNING";
     ps_ssh_host := ssh_host cfg;
     ps_ssh_port := ssh_port cfg;
     ps_is_running := true |}.

(** The polling loop of [wait_for_pod_ready]:
    [while time.time() - start_time < timeout].  [fuel] bounds the
    number of iterations; every iteration that does not return sleeps
    ten seconds, so [S timeout] is never used up
    (see [wait_loop_terminates]). *)
Fixpoint wait_loop (fuel : nat) (start_time timeout : nat) : M bool :=
  t <- clock ;;
  if t - start_time <? timeout then
    match fuel with
    | O => fun w => (OutOfFuel, w)
    | S fuel' =>
        pod_info <- get_pod_info ;;
        match pod_info with
        | Some info =>
            if runtime info then
              reachable <-
                (if truthy_str (ssh_host cfg) && truthy_int (ssh_port cfg)
                 then test_ssh_connection else ret false) ;;
              if reachable then
                set_current_pod (Some running_status) ;; ret true
              else sleep 10 ;; wait_loop fuel' start_time timeout
            else sleep 10 ;; wait_loop fuel' start_time timeout
        | None => sleep 10 ;; wait_loop fuel' start_time timeout
        end
    end
  else ret false.

(** [RunPodManager.wait_for_pod_ready] *)
Definition wait_for_pod_ready (timeout : nat) : M bool :=
  start_time <- clock ;;
  fast <- try_except
            (ok <- test_ssh_connection ;;
             if ok then set_current_pod (Some running_status) ;; ret true
             else ret false)
            (fun _ => ret false) ;;
  if fast then ret true
  else wait_loop (S timeout) start_time timeout.

(** [utils.ensure_pod_running] *)
Definition ensure_pod_running (auto_start : bool) : M bool :=
  ok <- test_ssh_connection ;;
  if ok then
    _ <- wait_for_pod_ready 30 ;; ret true
  else if auto_start then
    started <- start_pod ;;
    if started then wait_for_pod_ready 300 else ret false
  else ret false.

End Manager.

(** *** [utils.py] *)

Section Utils.

Variable cfg : Config.
Variable env : Env.

(** A local file-system operation that may raise. *)
Definition local_do (op : LocalOp) : M unit :=
  h <- request env (EvLocal op) 0 ;; of_failure (local_raises env h).

(** [path.exists()] *)
Definition local_exists (path : pystr) : M bool :=
  h <- request env (EvLocal (Exists path)) 0 ;;
  of_failure (local_raises env h) ;;
  ret (local_test env h).

(** [try: if exists(path): remove(path) / except Exception: pass] *)
Definition remove_if_present (path : pystr) : M unit :=
  try_except
    (present <- local_exists path ;;
     if present then local_do (Unlink path) else ret tt)
    (fun _ => ret tt).

(** The command [clear_remote_directory] builds for a stripped path. *)
Definition purge_command (remote_dir : pystr) : pystr :=
  py "bash -lc 'set -e; mkdir -p " ++ quote_escape remote_dir
  ++ py "; rm -rf " ++ quote_escape remote_dir ++ py "/*'".

(** [utils.clear_remote_directory] *)
Definition clear_remote_directory (remote_dir : pystr) : M bool :=
  ready <- ensure_pod_running cfg env false ;;
  if negb ready then ret false
  else
    let remote_dir := strip remote_dir in
    if negb (startswith (py "/workspace") remote_dir) then ret false
    else
      r <- execute_ssh_command cfg env (purge_command remote_dir) 300 ;;
      ret (cr_success r).

(** The commands of [download_and_extract_outputs]. *)
Definition check_cmd (remote_dir : pystr) : pystr :=
  py "test -d '" ++ quote_escape remote_dir
  ++ py "' && echo OK || echo MISSING".

Definition parent_dir_cmd (remote_dir : pystr) : pystr :=
  py "python3 -c 'import os,sys; p=" ++ [34%N] ++ quote_escape remote_dir
  ++ [34%N]
  ++ py "; import pathlib; q=str(pathlib.Path(p).parent); print(q)'".

Definition remote_name_cmd (remote_dir : pystr) : pystr :=
  py "python3 -c 'import pathlib; print(pathlib.Path(" ++ [34%N]
  ++ quote_escape remote_dir ++ [34%N] ++ py ").name)'".

Definition archive_path (archive_name_prefix ts : pystr) : pystr :=
  py "/workspace/" ++ archive_name_prefix ++ py "_" ++ ts ++ py ".tar.gz".

Definition tar_cmd (remote_parent remote_archive remote_name : pystr)
    : pystr :=
  py "tar -C '" ++ remote_parent ++ py "' -czf '" ++ remote_archive
  ++ py "' '" ++ remote_name ++ py "'".

Definition rm_cmd (remote_archive : pystr) : pystr :=
  py "rm -f " ++ remote_archive.

Definition is_empty (s : pystr) : bool :=
  match s with
  | [] => true
  | _ :: _ => false
  end.

(** [utils.download_and_extract_outputs] *)
Definition download_and_extract_outputs
    (remote_dir local_base_dir archive_name_prefix : pystr)
    : M (option LocalPath) :=
  ready <- ensure_pod_running cfg env false ;;
  if negb ready then ret None
  else
    let remote_dir := strip remote_dir in
    r <- execute_ssh_command cfg env (check_cmd remote_dir) 300 ;;
    if negb (cr_success r) || negb (contains (py "OK") (cr_stdout r))
    then ret None
    else
      t <- clock ;;
      let ts := strftime env t in
      let remote_archive := archive_path archive_name_prefix ts in
      r <- execute_ssh_command cfg env (parent_dir_cmd remote_dir) 300 ;;
      if negb (cr_success r) || is_empty (strip (cr_stdout r))
      then ret None
      else
        let remote_parent := first_line (strip (cr_stdout r)) in
        r <- execute_ssh_command cfg env (remote_name_cmd remote_dir) 300 ;;
        if negb (cr_success r) || is_empty (strip (cr_stdout r))
        then ret None
        else
          let remote_name := first_line (strip (cr_stdout r)) in
          r <- execute_ssh_command cfg env
                 (tar_cmd remote_parent remote_archive remote_name) 300 ;;
          if negb (cr_success r) then ret None
          else
            let local_archive := path_name remote_archive in
            got <- download_file cfg env remote_archive local_archive ;;
            if negb got then ret None
            else
              let target_dir :=
                {| parent := local_base_dir; leaf := py "batch_" ++ ts |} in
              local_do (Mkdir target_dir) ;;
              extracted <-
                try_finally
                  (try_except
                     (local_do (Extract local_archive target_dir) ;;
                      ret true)
                     (fun _ => ret false))
                  (remove_if_present local_archive) ;;
              if negb extracted then ret None
              else
                _ <- execute_ssh_command cfg env (rm_cmd remote_archive) 300 ;;
                ret (Some target_dir).

Definition extract_cmd (remote_archive : pystr) : pystr :=
  py "cd /workspace && tar -xzf '" ++ remote_archive ++ py "' && rm -f '"
  ++ remote_archive ++ py "'".

(** [utils.upload_project_files] *)
Definition upload_project_files (local_path : pystr) : M bool :=
  ready <- ensure_pod_running cfg env false ;;
  if negb ready then ret false
  else
    try_except
      (present <- local_exists local_path ;;
       if negb present then ret false
       else
         h <- request env (EvLocal MkTemp) 0 ;;
         of_failure (local_raises env h) ;;
         let archive_name := temp_name env h in
         local_do (TarCreate archive_name local_path) ;;
         let remote_archive := py "/workspace/" ++ path_name archive_name in
         success <- upload_file cfg env archive_name remote_archive ;;
         remove_if_present archive_name ;;
         if negb success then ret false
         else
           r <- execute_ssh_command cfg env (extract_cmd remote_archive) 300 ;;
           ret (cr_success r))
      (fun _ => ret false).

End Utils.

(** *** Reading a history *)

(** The commands dispatched, newest first. *)
Fixpoint commands_of (h : list Event) : list pystr :=
  match h with
  | [] => []
  | EvExec c :: t => c :: commands_of t
  | _ :: t => commands_of t
  end.

Fixpoint probes_in (h : list Event) : nat :=
  match h with
  | [] => 0
  | EvProbe :: t => S (probes_in t)
  | _ :: t => probes_in t
  end.

(** What readiness polling may ask of the outside: a probe, a
    ten-second sleep and, when an API key is configured, a description
    of the pod. *)
Definition polling_event (cfg : Config) (e : Event) : Prop :=
  e = EvProbe \/ e = EvSleep 10
  \/ (truthy_str (api_key cfg) = true /\ e = EvHttpPost Describe).

(** A probe made after history [h] succeeds. *)
Definition probe_succeeds (cfg : Config) (env : Env) (h : list Event)
    : bool :=
  negb (no_connection_details cfg)
  && match ssh_connect env (EvProbe :: h) with
     | None => true
     | Some _ => false
     end.

(** What one command session asks. *)
Definition session_event (command : pystr) (timeout : nat) (e : Event)
    : Prop :=
  e = EvSshConnect timeout \/ e = EvExec command \/ e = EvSshClose.

(** The exit status [execute_ssh_command] goes by. *)
Definition status_used (status : Reply Z) : Z :=
  match status with
  | Fine n => n
  | Throws _ => 0%Z
  end.

(** The existence check of [download_and_extract_outputs] passed. *)
Definition check_passes (answer : Outcome CommandResult) : bool :=
  match answer with
  | Ret r => cr_success r && contains (py "OK") (cr_stdout r)
  | _ => false
  end.

Definition is_start_or_stop (e : Event) : bool :=
  match e with
  | EvHttpPost Start | EvHttpPost Stop => true
  | _ => false
  end.

Definition is_control_plane (e : Event) : bool :=
  match e with
  | EvHttpPost _ => true
  | _ => false
  end.

Definition is_command (e : Event) : bool :=
  match e with
  | EvExec _ => true
  | _ => false
  end.

Definition is_mkdir (e : Event) : bool :=
  match e with
  | EvLocal (Mkdir _) => true
  | _ => false
  end.

(** [e] is not the removal of a file on the worker. *)
Definition no_removal (e : Event) : Prop :=
  match e with
  | EvExec c => startswith (py "rm -f ") c = false
  | _ => True
  end.

(** [w'] continues [w]: the clock did not go back and the history grew
    by events that all satisfy [P]. *)
Definition continues (P : Event -> Prop) (w w' : World) : Prop :=
  now w <= now w' /\
  exists added, trace w' = added ++ trace w /\ Forall P added.

(** One command session of the existence check and what may surround
    it: polling, then connect / the check / close. *)
Definition check_event (cfg : Config) (check : pystr) (e : Event) : Prop :=
  polling_event cfg e \/ session_event check 300 e.

(** The remote process ran to completion: the session connected, the
    command was dispatched, both streams were read and the exit status
    arrived. *)
Definition runs_to_completion (env : Env) (h : list Event)
    (command : pystr) (timeout : nat)
    (raw_out raw_err : list byte) (status : Reply Z) : Prop :=
  let h1 := EvSshConnect timeout :: h in
  let h2 := EvExec command :: h1 in
  ssh_connect env h1 = None /\ ssh_exec env h2 = None
  /\ chan_stdout env h2 = Fine raw_out
  /\ chan_stderr env h2 = Fine raw_err
  /\ chan_status env h2 = status.

(** *** Sample configurations and environments *)

Definition sample_cfg (key : option pystr) : Config :=
  {| pod_id := py "nstyyroc81ocnm";
     api_key := key;
     ssh_host := Some (py "194.68.245.201");
     ssh_port := Some 22075%Z;
     ssh_user := py "root";
     ssh_key_path := py "/Users/ElinaKlymovska/.ssh/id_ed25519" |}.

Definition fresh : World :=
  {| trace := []; now := 0; current_pod := None |}.

Definition refused : Exn := Exception (py "Connection refused").

(** A worker that answers every command with [stdout], [stderr] and
    [status], reachable as long as [reachable] says so; the control
    plane answers 200 with [pod]. *)
Definition worker (reachable : list Event -> bool)
    (stdout stderr : list Event -> list byte) (status : Reply Z)
    (pod : option Payload) (scp_code : Z) : Env :=
  {| ssh_connect := fun h => if reachable h then None else Some refused;
     ssh_exec := fun _ => None;
     chan_stdout := fun h => Fine (stdout h);
     chan_stderr := fun h => Fine (stderr h);
     chan_status := fun _ => status;
     http_post := fun _ => HttpResponse 200 (JsonData pod);
     scp_run := fun _ => Fine scp_code;
     local_raises := fun _ => None;
     local_test := fun _ => true;
     temp_name := fun _ => py "/tmp/project_k3x9.tar.gz";
     elapsed := fun _ => 1;
     strftime := fun _ => py "20240102_030405";
     decode_error := fun _ =>
       py "'utf-8' codec can't decode byte 0xff in position 0: invalid start byte" |}.

Definition always : list Event -> bool := fun _ => true.

(** Reachable for the first probe only. *)
Definition first_probe_only (h : list Event) : bool := probes_in h <=? 1.

Definition silent : list Event -> list byte := fun _ => [].

(** Answers of a worker holding [/workspace/data/outputs]: the first
    command prints OK, the second the parent, the third the name. *)
Definition outputs_listing (h : list Event) : list byte :=
  match List.length (commands_of h) with
  | 1 => ascii_bytes "OK"
  | 2 => ascii_bytes "/workspace/data"
  | 3 => ascii_bytes "outputs"
  | _ => []
  end.

(** A process that prints a line on each stream and exits with
    [status]. *)
Definition exits_with (status : Z) : Env :=
  worker always (fun _ => ascii_bytes "3 files skipped")
         (fun _ => ascii_bytes "disk quota exceeded") (Fine status) None 0.

(** A session in which the read of the exit status,
    [recv_exit_status()], raises. *)
Definition status_read_raises : Env :=
  worker always (fun _ => ascii_bytes "step 1 done") silent
         (Throws (Exception (py "status read failed"))) None 0.

(** A session whose channel closes before an exit status arrives: the
    read does not raise then, [recv_exit_status()] answers -1. *)
Definition channel_closed : Env :=
  worker always (fun _ => ascii_bytes "step 1 done") silent
         (Fine (-1)%Z) None 0.

(** The same outside world, except that extracting an archive on the
    local machine fails. *)
Definition extraction_fails (e : Env) : Env :=
  {| ssh_connect := ssh_connect e;
     ssh_exec := ssh_exec e;
     chan_stdout := chan_stdout e;
     chan_stderr := chan_stderr e;
     chan_status := chan_status e;
     http_post := http_post e;
     scp_run := scp_run e;
     local_raises := fun h =>
       match h with
       | EvLocal (Extract _ _) :: _ => Some (Exception (py "ReadError"))
       | _ => local_raises e h
       end;
     local_test := local_test e;
     temp_name := temp_name e;
     elapsed := elapsed e;
     strftime := strftime e;
     decode_error := decode_error e |}.

End Remote.

(* ===================================================================== *)
(** ** The rest of the manager and of the utilities, and their callers *)
(* ===================================================================== *)

Module Operations.
Import Remote.

Local Open Scope py_scope.

(** [str(n)] for an [int]. *)
Definition str_of_int (n : Z) : pystr :=
  py (NilZero.string_of_int (Z.to_int n)).

(** [s.endswith(suffix)] *)
Definition endswith (suffix s : pystr) : bool :=
  startswith (rev suffix) (rev s).

(** [s.split()]: the words between runs of blanks; [cur] is the word
    being read, reversed. *)
Fixpoint words_from (s cur : pystr) : list pystr :=
  match s with
  | [] => if is_empty cur then [] else [rev cur]
  | c :: t =>
      if is_space c then
        if is_empty cur then words_from t [] else rev cur :: words_from t []
      else words_from t (c :: cur)
  end.

Definition split_words (s : pystr) : list pystr := words_from s [].

(** [s.split(sep)] for a non-empty [sep]; [skip] counts the characters
    of a separator just found that are still to be passed over. *)
Fixpoint split_from (sep s : pystr) (skip : nat) (cur : pystr)
    : list pystr :=
  match s with
  | [] => [rev cur]
  | c :: t =>
      match skip with
      | S k => split_from sep t k cur
      | O =>
          if startswith sep s
          then rev cur :: split_from sep t (List.length sep - 1) []
          else split_from sep t 0 (c :: cur)
      end
  end.

Definition split (sep s : pystr) : list pystr := split_from sep s 0 [].

(** [parts[i]], raising [IndexError] out of range. *)
Definition item (parts : list pystr) (i : nat) : M pystr :=
  match nth_error parts i with
  | Some part => ret part
  | None => raise (Exception (py "list index out of range"))
  end.

(** *** Reading a world *)

(** The pod was recorded as running right after a probe that went
    through. *)
Definition ready_at (cfg : Config) (env : Env) (w : World) : Prop :=
  current_pod w = Some (running_status cfg)
  /\ exists h, trace w = EvProbe :: h /\ probe_succeeds cfg env h = true.

(** The pod is on record as running. *)
Definition pod_on_record (w : World) : bool :=
  match current_pod w with
  | Some status => ps_is_running status
  | None => false
  end.

(** The history of [w'] extends that of [w]. *)
Definition grows (w w' : World) : Prop :=
  exists added, trace w' = added ++ trace w.

(** Requests for a start of the pod in a history. *)
Fixpoint starts_in (h : list Event) : nat :=
  match h with
  | [] => 0
  | EvHttpPost Start :: t => S (starts_in t)
  | _ :: t => starts_in t
  end.

(** *** [_exclude], the filter of [upload_project_files] *)

Definition excluded : list pystr :=
  [ py ".git/"; py "node_modules/"; py "__pycache__/"; py ".mypy_cache/";
    py ".pytest_cache/" ].

(** [None] drops the archive member, [Some name] keeps it. *)
Definition _exclude (name : pystr) : option pystr :=
  if existsb (fun token => contains token name) excluded then None
  else if endswith (py ".pyc") name || endswith (py ".pyo") name then None
  else Some name.

Section Operations.

Variable cfg : Config.
Variable env : Env.

(** [for cmd in commands: ... if not success: return False], then
    [return True]. *)
Fixpoint run_each (commands : list pystr) (timeout : nat) : M bool :=
  match commands with
  | [] => ret true
  | cmd :: rest =>
      r <- execute_ssh_command cfg env cmd timeout ;;
      if negb (cr_success r) then ret false
      else run_each rest timeout
  end.

(** [not self.current_pod or not self.current_pod.is_running] *)
Definition no_running_pod : M bool :=
  pod <- get_current_pod ;;
  ret (match pod with
       | Some status => negb (ps_is_running status)
       | None => true
       end).

Definition workspace_commands : list pystr :=
  [ py "mkdir -p /workspace";
    py "mkdir -p /workspace/data";
    py "mkdir -p /workspace/data/input";
    py "mkdir -p /workspace/data/outputs";
    py "mkdir -p /workspace/scripts";
    py "mkdir -p /workspace/logs" ].

(** [RunPodManager.setup_workspace] *)
Definition setup_workspace : M bool :=
  stopped <- no_running_pod ;;
  if stopped then ret false
  else run_each workspace_commands 300.

Definition dependency_commands : list pystr :=
  [ py "apt-get update";
    py "apt-get install -y git python3-pip python3-venv wget curl";
    py "cd /workspace && git clone https://github.com/AUTOMATIC1111/stable-diffusion-webui.git || true";
    py "python3 -m pip install --upgrade pip";
    py "cd /workspace/stable-diffusion-webui && pip install -r requirements.txt";
    py "cd /workspace/stable-diffusion-webui && git clone https://github.com/Bing-su/adetailer.git extensions/adetailer || true";
    py "cd /workspace/stable-diffusion-webui && git clone https://github.com/Mikubill/sd-webui-controlnet extensions/sd-webui-controlnet || true";
    py "python3 -m pip install insightface==0.7.3 face_recognition==1.3.0 opencv-python-headless==4.10.0.84 pillow==10.4.0 requests==2.32.3 numpy==1.26.4 python-dotenv==1.0.1" ].

(** [RunPodManager.install_dependencies] *)
Definition install_dependencies : M bool :=
  stopped <- no_running_pod ;;
  if stopped then ret false
  else run_each dependency_commands 600.

(** [RunPodManager.cleanup] *)
Definition cleanup : M unit :=
  stopped <- no_running_pod ;;
  if stopped then ret tt else set_current_pod None.

(** [utils.create_backup]; [backup_name] is [None] or a string, and an
    empty string counts as none given. *)
Definition create_backup (path : pystr) (backup_name : option pystr)
    : M bool :=
  ready <- ensure_pod_running cfg env false ;;
  if negb ready then ret false
  else
    backup_name <-
      (if truthy_str backup_name
       then ret (match backup_name with Some n => n | None => [] end)
       else
         t <- clock ;;
         ret (py "backup_" ++ strftime env t ++ py ".tar.gz")) ;;
    r <- execute_ssh_command cfg env
           (py "cd /workspace && tar -czf " ++ backup_name ++ py " " ++ path)
           300 ;;
    ret (cr_success r).

(** [utils.restore_backup] *)
Definition restore_backup (backup_path target_path : pystr) : M bool :=
  ready <- ensure_pod_running cfg env false ;;
  if negb ready then ret false
  else
    r <- execute_ssh_command cfg env
           (py "cd " ++ target_path ++ py " && tar -xzf " ++ backup_path)
           300 ;;
    ret (cr_success r).

Definition pgrep_cmd (process_name : pystr) : pystr :=
  py "pgrep -f '" ++ process_name ++ py "'".

(** The loop of [monitor_process]:
    [while time.time() - start_time < timeout].  Every iteration that
    goes round sleeps thirty seconds. *)
Fixpoint monitor_loop (fuel : nat) (process_name : pystr)
    (start_time : nat) (timeout : Z) : M bool :=
  t <- clock ;;
  if (Z.of_nat (t - start_time) <? timeout)%Z then
    match fuel with
    | O => fun w => (OutOfFuel, w)
    | S fuel' =>
        r <- execute_ssh_command cfg env (pgrep_cmd process_name) 300 ;;
        if cr_success r && negb (is_empty (strip (cr_stdout r))) then
          sleep env 30 ;;
          monitor_loop fuel' process_name start_time timeout
        else ret false
    end
  else ret false.

(** [utils.monitor_process] *)
Definition monitor_process (process_name : pystr) (timeout : Z) : M bool :=
  ready <- ensure_pod_running cfg env false ;;
  if negb ready then ret false
  else
    start_time <- clock ;;
    monitor_loop (S (Z.to_nat timeout)) process_name start_time timeout.

Definition logs_cmd (log_path : pystr) (lines : Z) : pystr :=
  py "find " ++ log_path ++ py " -name '*.log' -exec tail -n "
  ++ str_of_int lines ++ py " {} \;".

(** [utils.get_logs] *)
Definition get_logs (log_path : pystr) (lines : Z) : M pystr :=
  ready <- ensure_pod_running cfg env false ;;
  if negb ready then ret (py "No running pod available")
  else
    r <- execute_ssh_command cfg env (logs_cmd log_path lines) 300 ;;
    if cr_success r then ret (cr_stdout r)
    else ret (py "Error getting logs: " ++ cr_stderr r).

(** [utils.get_system_info]; the dict is the list of its items in the
    order they were set. *)
Definition get_system_info : M (list (pystr * pystr)) :=
  ready <- ensure_pod_running cfg env false ;;
  if negb ready then ret [(py "error", py "No running pod available")]
  else
    r <- execute_ssh_command cfg env
           (py "nvidia-smi --query-gpu=name,memory.total,memory.used --format=csv,noheader,nounits")
           300 ;;
    gpu <-
      (if cr_success r && negb (is_empty (strip (cr_stdout r))) then
         let gpu_info := split (py ", ") (strip (cr_stdout r)) in
         g0 <- item gpu_info 0 ;;
         g1 <- item gpu_info 1 ;;
         g2 <- item gpu_info 2 ;;
         ret (g0 ++ py " (" ++ g1 ++ py "MB total, " ++ g2 ++ py "MB used)")
       else ret (py "Not available")) ;;
    let info := [(py "gpu", gpu)] in
    r <- execute_ssh_command cfg env (py "free -h | grep Mem") 300 ;;
    memory <-
      (if cr_success r && negb (is_empty (strip (cr_stdout r))) then
         let parts := split_words (cr_stdout r) in
         p1 <- item parts 1 ;;
         p2 <- item parts 2 ;;
         p3 <- item parts 3 ;;
         ret (p1 ++ py " total, " ++ p2 ++ py " used, " ++ p3 ++ py " free")
       else ret (py "Not available")) ;;
    let info := info ++ [(py "memory", memory)] in
    r <- execute_ssh_command cfg env (py "df -h /workspace") 300 ;;
    info <-
      (if cr_success r && negb (is_empty (strip (cr_stdout r))) then
         let lines := split [10%N] (strip (cr_stdout r)) in
         if 1 <? List.length lines then
           line <- item lines 1 ;;
           let parts := split_words line in
           p1 <- item parts 1 ;;
           p2 <- item parts 2 ;;
           p3 <- item parts 3 ;;
           ret (info ++ [(py "disk", p1 ++ py " total, " ++ p2
                                     ++ py " used, " ++ p3
                                     ++ py " available")])
         else ret info
       else ret (info ++ [(py "disk", py "Not available")])) ;;
    r <- execute_ssh_command cfg env (py "python3 --version") 300 ;;
    if cr_success r
    then ret (info ++ [(py "python", strip (cr_stdout r))])
    else ret (info ++ [(py "python", py "Not available")]).

(** *** [run_pipeline.py]: the methods of [PipelineRunner], over the
    manager it holds *)

Definition webui_check_cmd : pystr :=
  py "curl -s http://localhost:7860 > /dev/null && echo 'ready' || echo 'not_ready'".

(** The loop of [wait_for_webui]; every iteration that goes round
    sleeps ten seconds. *)
Fixpoint webui_loop (fuel : nat) (start_time : nat) (timeout : Z)
    : M bool :=
  t <- clock ;;
  if (Z.of_nat (t - start_time) <? timeout)%Z then
    match fuel with
    | O => fun w => (OutOfFuel, w)
    | S fuel' =>
        found <-
          try_except
            (response <- execute_ssh_command cfg env webui_check_cmd 300 ;;
             ret (cr_success response
                  && contains (py "ready") (cr_stdout response)))
            (fun _ => ret false) ;;
        if found then ret true
        else sleep env 10 ;; webui_loop fuel' start_time timeout
    end
  else ret false.

(** [PipelineRunner.wait_for_webui] *)
Definition wait_for_webui (timeout : Z) : M bool :=
  start_time <- clock ;;
  webui_loop (S (Z.to_nat timeout)) start_time timeout.

(** *** [cli.py] *)

(** [cmd_monitor]; the value is the exit code. *)
Definition cmd_monitor (auto_start : bool) (process : pystr) (timeout : Z)
    : M Z :=
  ready <- ensure_pod_running cfg env auto_start ;;
  if negb ready then ret 1%Z
  else
    ok <- monitor_process process timeout ;;
    if ok then ret 0%Z else ret 1%Z.

End Operations.

(** *** Reading the outcome of [get_system_info] *)

(** The commands [get_system_info] runs. *)
Definition system_queries : list pystr :=
  [ py "nvidia-smi --query-gpu=name,memory.total,memory.used --format=csv,noheader,nounits";
    py "free -h | grep Mem";
    py "df -h /workspace";
    py "python3 --version" ].

Definition index_error : Exn := Exception (py "list index out of range").

(** What [get_system_info] may ask of the outside. *)
Definition system_event (cfg : Config) (e : Event) : Prop :=
  polling_event cfg e
  \/ exists command, In command system_queries /\ session_event command 300 e.

(** *** More sample configurations and environments *)

(** A configuration with an API key and no SSH host. *)
Definition detached_cfg : Config :=
  {| pod_id := py "nstyyroc81ocnm";
     api_key := Some (py "rpa_0123456789");
     ssh_host := None;
     ssh_port := Some 22075%Z;
     ssh_user := py "root";
     ssh_key_path := py "/Users/ElinaKlymovska/.ssh/id_ed25519" |}.

(** A worker on which nothing listens on port 7860: the check of
    [wait_for_webui] prints its second word. *)
Definition webui_down : Env :=
  worker always (fun _ => ascii_bytes "not_ready" ++ [x0a]) silent
         (Fine 0%Z) None 0.

(** A worker that refuses every connection. *)
Definition unreachable : Env :=
  worker (fun _ => false) silent silent (Fine 0%Z) None 0.

(** A worker that answers every command with one word. *)
Definition one_word : Env :=
  worker always (fun _ => ascii_bytes "unknown" ++ [x0a]) silent
         (Fine 0%Z) None 0.

End Operations.

(* ===================================================================== *)
(** ** Facts about strings *)
(* ===================================================================== *)

Unset Implicit Arguments.

Module PyStrFacts.

Lemma eqb_spec (a b : pystr) : reflect (a = b) (eqb a b).
Proof.
  unfold eqb. destruct (list_eq_dec N.eq_dec a b); constructor; assumption.
Qed.

Lemma eqb_refl (a : pystr) : eqb a a = true.
Proof. destruct (eqb_spec a a); congruence. Qed.

(** [strip] takes blanks off both ends and leaves inner ones. *)
Example strip_padded_path :
  strip (py "  /workspace/my data   ") = py "/workspace/my data".
Proof. reflexivity. Qed.


Example quote_escape_quote : quote_escape (py "it's") = py "it'\''s".
Proof. reflexivity. Qed.

Example path_name_archive :
  path_name (py "/workspace/facial_outputs_20240102_030405.tar.gz")
  = py "facial_outputs_20240102_030405.tar.gz".
Proof. reflexivity. Qed.

(** A two-byte, a three-byte and a four-byte sequence decode to one code
    point each; a stray byte, an overlong form and a surrogate do not
    decode. *)
Example utf8_decode_accepts :
  utf8_decode [x41; xc3; xa9; xe2; x82; xac; xf0; x9f; x98; x80]
  = Some [65; 233; 8364; 128512]%N.
Proof. reflexivity. Qed.

Example utf8_decode_rejects :
  utf8_decode [xff] = None
  /\ utf8_decode [xc0; x80] = None
  /\ utf8_decode [xed; xa0; x80] = None
  /\ utf8_decode [xe2; x82] = None.
Proof. repeat split. Qed.

End PyStrFacts.

(* ===================================================================== *)
(** ** Facts about the retention manager *)
(* ===================================================================== *)

Module RetentionFacts.
Import Retention PyStrFacts.

Local Open Scope Z_scope.

Lemma insert_desc_perm x l : Permutation (insert_desc x l) (x :: l).
Proof.
  induction l as [|y l IH]; simpl.
  - apply Permutation_refl.
  - destruct (st_mtime y <=? st_mtime x).
    + apply Permutation_refl.
    + eapply perm_trans; [apply perm_skip, IH | apply perm_swap].
Qed.

Lemma sort_newest_first_perm l : Permutation (sort_newest_first l) l.
Proof.
  induction l as [|x l IH]; simpl.
  - constructor.
  - eapply perm_trans; [apply insert_desc_perm | apply perm_skip, IH].
Qed.

Lemma insert_desc_hd x y l :
  not_older y x -> HdRel not_older y l -> HdRel not_older y (insert_desc x l).
Proof.
  intros Hyx Hl. destruct l as [|z l]; simpl.
  - constructor. exact Hyx.
  - destruct (st_mtime z <=? st_mtime x).
    + constructor. exact Hyx.
    + constructor. inversion Hl; assumption.
Qed.

Lemma insert_desc_sorted x l :
  Sorted not_older l -> Sorted not_older (insert_desc x l).
Proof.
  induction 1 as [|y l Hs IH Hhd]; simpl.
  - repeat constructor.
  - destruct (st_mtime y <=? st_mtime x) eqn:E.
    + constructor.
      * constructor; assumption.
      * constructor. unfold not_older. lia.
    + constructor.
      * exact IH.
      * apply insert_desc_hd; [unfold not_older; lia | exact Hhd].
Qed.

Lemma sort_newest_first_sorted l : Sorted not_older (sort_newest_first l).
Proof.
  induction l as [|x l IH]; simpl.
  - constructor.
  - apply insert_desc_sorted, IH.
Qed.

Lemma sort_newest_first_strongly l :
  StronglySorted not_older (sort_newest_first l).
Proof.
  apply Sorted_StronglySorted.
  - intros a b c Hab Hbc. unfold not_older in *. lia.
  - apply sort_newest_first_sorted.
Qed.

(** The loop counts every path it visits, whether or not the removal
    went through: [rmtree(..., ignore_errors=True)] does not raise. *)
Lemma remove_loop_count paths : forall n es,
  fst (remove_loop paths n es) = (n + List.length paths)%nat.
Proof.
  induction paths as [|p paths IH]; intros n es; simpl.
  - lia.
  - unfold rmtree. destruct (rm_fails p); rewrite IH; lia.
Qed.

(** What the loop leaves: the entries that do not bear the name of a
    path whose removal went through. *)
Lemma remove_loop_result paths : forall n es,
  snd (remove_loop paths n es)
  = filter (fun e => negb (named_in (filter deletable paths) e)) es.
Proof.
  induction paths as [|p paths IH]; intros n es; simpl.
  - induction es as [|e es IHes]; simpl; [reflexivity | now f_equal].
  - unfold rmtree, deletable at 1. destruct (rm_fails p); simpl.
    + apply IH.
    + rewrite IH. clear.
      induction es as [|e es IHes]; simpl; [reflexivity|].
      destruct (eqb (name e) (name p)); simpl.
      * exact IHes.
      * destruct (named_in (filter deletable paths) e); simpl;
          [exact IHes | now f_equal].
Qed.

Lemma filter_deletable_all paths :
  Forall (fun p => rm_fails p = false) paths ->
  filter deletable paths = paths.
Proof.
  induction 1 as [|p paths Hp _ IH]; [reflexivity|].
  simpl. unfold deletable at 1. rewrite Hp. simpl. now f_equal.
Qed.

Lemma remove_loop_stuck paths : forall n es,
  Forall (fun p => rm_fails p = true) paths ->
  snd (remove_loop paths n es) = es.
Proof.
  induction paths as [|p paths IH]; intros n es Hall; simpl.
  - reflexivity.
  - inversion Hall as [|? ? Hp Hrest]; subst.
    unfold rmtree. rewrite Hp. apply IH. assumption.
Qed.

Lemma name_injective (es : list DirEntry) x y :
  NoDup (map name es) -> In x es -> In y es -> name x = name y -> x = y.
Proof.
  induction es as [|e es IH]; simpl; intros Hnd Hx Hy Hxy; [contradiction|].
  inversion Hnd as [|? ? Hnotin Hnd']; subst.
  destruct Hx as [-> | Hx], Hy as [-> | Hy].
  - reflexivity.
  - exfalso. apply Hnotin. rewrite Hxy. now apply in_map.
  - exfalso. apply Hnotin. rewrite <- Hxy. now apply in_map.
  - now apply IH.
Qed.

Lemma named_in_spec es paths e :
  NoDup (map name es) -> incl paths es -> In e es ->
  named_in paths e = true <-> In e paths.
Proof.
  intros Hnd Hincl He. unfold named_in. rewrite existsb_exists. split.
  - intros (p & Hp & Heq). destruct (eqb_spec (name e) (name p)); [|discriminate].
    assert (e = p) by (eapply name_injective; eauto). now subst.
  - intros Hin. exists e. split; [assumption | apply eqb_refl].
Qed.

Lemma candidates_incl es : incl (candidates_of es) es.
Proof. intros e He. unfold candidates_of in He. now apply filter_In in He. Qed.

(** C6.  Over a base directory whose batch directories are five, with
    distinct modification times, [prune_local_batches] with [keep = 2]
    returns 3, hands the three oldest to [rmtree] and keeps the two
    newest; when the three deletions go through, what is left is the
    base without these three.  With a negative [keep] it leaves every
    base as it is, returning 0 whenever the base is a directory or does
    not exist. *)
Theorem prune_keeps_newest_two_of_five :
  (forall es,
      NoDup (map name es) ->
      List.length (candidates_of es) = 5%nat ->
      NoDup (map st_mtime (candidates_of es)) ->
      exists kept removed es',
        prune_local_batches (Directory es) 2 = (Ret 3%nat, Directory es')
        /\ List.length kept = 2%nat /\ List.length removed = 3%nat
        /\ Permutation (candidates_of es) (kept ++ removed)
        /\ (forall k r, In k kept -> In r removed -> st_mtime r < st_mtime k)
        /\ to_remove (sort_newest_first (candidates_of es)) 2 = removed
        /\ (forall k, In k kept -> In k es')
        /\ (Forall (fun p => rm_fails p = false) removed ->
            forall e, In e es' <-> In e es /\ ~ In e removed))
  /\ (forall base keep,
         keep < 0 ->
         snd (prune_local_batches base keep) = base
         /\ (base <> RegularFile ->
             fst (prune_local_batches base keep) = Ret 0%nat)).
Proof.
  split.
  - intros es Hnd Hlen Hmt.
    pose proof (sort_newest_first_perm (candidates_of es)) as Hperm.
    pose proof (sort_newest_first_strongly (candidates_of es)) as Hsorted.
    assert (Hlen' : List.length (sort_newest_first (candidates_of es)) = 5%nat)
      by (rewrite (Permutation_length Hperm); exact Hlen).
    assert (Hmt' : NoDup (map st_mtime (sort_newest_first (candidates_of es)))).
    { eapply Permutation_NoDup; [|exact Hmt].
      apply Permutation_map, Permutation_sym, Hperm. }
    assert (Hincl : incl (sort_newest_first (candidates_of es)) es).
    { intros p Hp. apply candidates_incl.
      eapply Permutation_in; [exact Hperm | exact Hp]. }
    unfold prune_local_batches.
    destruct (sort_newest_first (candidates_of es))
      as [|a [|b [|c [|d [|e [|f l]]]]]]; try discriminate Hlen'.
    exists [a; b], [c; d; e],
      (filter (fun x => negb (named_in (filter deletable [c; d; e]) x)) es).
    assert (Hsub : incl [c; d; e] es).
    { intros p Hp. apply Hincl. right. right. exact Hp. }
    assert (Hsub' : incl (filter deletable [c; d; e]) es).
    { intros p Hp. apply Hsub. apply filter_In in Hp. apply Hp. }
    assert (Hnewer : forall k r,
               In k [a; b] -> In r [c; d; e] -> st_mtime r < st_mtime k).
    { intros k r Hk Hr.
      assert (Hle : st_mtime r <= st_mtime k).
      { inversion Hsorted as [|? ? Hs1 Ha]; subst.
        inversion Hs1 as [|? ? _ Hb]; subst.
        rewrite Forall_forall in Ha, Hb.
        destruct Hk as [<- | [<- | []]].
        - apply Ha. right. exact Hr.
        - apply Hb. exact Hr. }
      assert (Hne : st_mtime r <> st_mtime k).
      { simpl in Hmt'.
        inversion Hmt' as [|? ? Ha Hnd1]; subst.
        inversion Hnd1 as [|? ? Hb _]; subst.
        destruct Hk as [<- | [<- | []]]; intros Heq.
        - apply Ha. rewrite <- Heq. right.
          apply (in_map st_mtime [c; d; e] r Hr).
        - apply Hb. rewrite <- Heq.
          apply (in_map st_mtime [c; d; e] r Hr). }
      lia. }
    split; [|split; [reflexivity|split; [reflexivity|split;
             [|split; [exact Hnewer|split; [reflexivity|split]]]]]].
    + change (to_remove [a; b; c; d; e] 2) with [c; d; e].
      pose proof (remove_loop_count [c; d; e] 0 es) as Hc.
      pose proof (remove_loop_result [c; d; e] 0 es) as Hs.
      destruct (remove_loop [c; d; e] 0 es) as [n es'].
      simpl in Hc, Hs. subst. reflexivity.
    + apply Permutation_sym. exact Hperm.
    + intros k Hk. apply filter_In.
      assert (Hkin : In k es).
      { apply Hincl. destruct Hk as [<- | [<- | []]]; simpl; tauto. }
      split; [exact Hkin|].
      destruct (named_in (filter deletable [c; d; e]) k) eqn:E;
        [|reflexivity].
      apply (named_in_spec es _ k Hnd Hsub' Hkin) in E.
      apply filter_In in E. destruct E as [E _].
      pose proof (Hnewer k k Hk E). lia.
    + intros Hrm x. rewrite (filter_deletable_all _ Hrm), filter_In. split.
      * intros [Hin Hneg]. split; [exact Hin|].
        intros Hrem. apply (named_in_spec es [c; d; e] x Hnd Hsub Hin) in Hrem.
        rewrite Hrem in Hneg. discriminate.
      * intros [Hin Hnot]. split; [exact Hin|].
        destruct (named_in [c; d; e] x) eqn:E; [|reflexivity].
        exfalso. apply Hnot.
        now apply (named_in_spec es [c; d; e] x Hnd Hsub Hin).
  - intros base keep Hneg. destruct base as [| |es]; simpl.
    + split; [reflexivity | reflexivity].
    + split; [reflexivity | intros H; now elim H].
    + unfold to_remove.
      destruct (keep >=? 0) eqn:E; [lia|]. simpl. split; reflexivity.
Qed.

Lemma prune_keeps_newest_two_of_five_witness :
  (exists kept removed es',
      prune_local_batches (Directory five_batches) 2
      = (Ret 3%nat, Directory es')
      /\ List.length kept = 2%nat /\ List.length removed = 3%nat
      /\ Permutation (candidates_of five_batches) (kept ++ removed)
      /\ (forall k r, In k kept -> In r removed -> st_mtime r < st_mtime k)
      /\ to_remove (sort_newest_first (candidates_of five_batches)) 2
         = removed
      /\ (forall k, In k kept -> In k es')
      /\ (Forall (fun p => rm_fails p = false) removed ->
          forall e, In e es' <-> In e five_batches /\ ~ In e removed))
  /\ snd (prune_local_batches (Directory five_batches) (-1))
     = Directory five_batches
  /\ (Directory five_batches <> RegularFile ->
      fst (prune_local_batches (Directory five_batches) (-1)) = Ret 0%nat).
Proof.
  destruct prune_keeps_newest_two_of_five as [Hfive Hneg]. split.
  - apply Hfive.
    + repeat (constructor; [simpl; intuition discriminate|]). constructor.
    + reflexivity.
    + repeat (constructor; [simpl; intuition discriminate|]). constructor.
  - apply (Hneg (Directory five_batches) (-1)). lia.
Defined.

(** The run of C6 spelled out: of the five batch directories, the ones
    of 4 and 5 January stay, and so does the file that is no batch. *)
Example prune_five_batches :
  prune_local_batches (Directory five_batches) 2
  = (Ret 3%nat,
     Directory
       [ {| name := py "notes.txt"; is_dir := false;
            st_mtime := 1704300000; rm_fails := false |};
         batch_dir "batch_20240105_120000" 1704456000;
         batch_dir "batch_20240104_174500" 1704390300 ]).
Proof. reflexivity. Qed.

(** The count returned is the number of candidates beyond [keep],
    whatever became of each removal. *)
Lemma prune_count_is_length es keep :
  fst (prune_local_batches (Directory es) keep)
  = Ret (List.length
           (to_remove (sort_newest_first (candidates_of es)) keep)).
Proof.
  unfold prune_local_batches.
  pose proof (remove_loop_count
                (to_remove (sort_newest_first (candidates_of es)) keep) 0 es)
    as Hc.
  destruct (remove_loop _ 0 es) as [n es']. simpl in *. now subst.
Qed.

(** C7.  A directory whose removal fails is still counted: over a base
    holding one batch directory that cannot be deleted,
    [prune_local_batches] with [keep = 0] returns 1 and the directory is
    still there; in general, when no removal goes through nothing is
    deleted and yet the count is the number of directories visited. *)
Theorem prune_counts_failed_removal :
  prune_local_batches
    (Directory [stuck_dir "batch_20240101_090000" 1704099600]) 0
  = (Ret 1%nat, Directory [stuck_dir "batch_20240101_090000" 1704099600])
  /\ (forall es keep,
         Forall (fun p => rm_fails p = true) (candidates_of es) ->
         prune_local_batches (Directory es) keep
         = (Ret (List.length
                   (to_remove (sort_newest_first (candidates_of es)) keep)),
            Directory es)).
Proof.
  split; [reflexivity|].
  intros es keep Hstuck.
  pose proof (prune_count_is_length es keep) as Hc.
  unfold prune_local_batches in *.
  assert (Hall : Forall (fun p => rm_fails p = true)
                   (to_remove (sort_newest_first (candidates_of es)) keep)).
  { rewrite Forall_forall in *. intros p Hp. apply Hstuck.
    eapply Permutation_in; [apply sort_newest_first_perm|].
    unfold to_remove in Hp. destruct (keep >=? 0); [|contradiction].
    rewrite <- (firstn_skipn (Z.to_nat keep)). apply in_or_app. now right. }
  pose proof (remove_loop_stuck _ 0 es Hall) as Hs.
  destruct (remove_loop _ 0 es) as [n es']. simpl in *.
  inversion Hc. now subst.
Qed.

Lemma prune_counts_failed_removal_witness :
  prune_local_batches
    (Directory [stuck_dir "batch_a" 5; batch_dir "cache" 9;
                stuck_dir "batch_b" 7]) 1
  = (Ret 1%nat,
     Directory [stuck_dir "batch_a" 5; batch_dir "cache" 9;
                stuck_dir "batch_b" 7]).
Proof.
  apply (proj2 prune_counts_failed_removal
           [stuck_dir "batch_a" 5; batch_dir "cache" 9; stuck_dir "batch_b" 7]
           1).
  repeat constructor.
Defined.

End RetentionFacts.



(* ===================================================================== *)
(** ** Facts about the manager *)
(* ===================================================================== *)

Module RemoteFacts.
Import Remote.

Local Open Scope py_scope.

Lemma bind_ret {A B} (c : M A) (k : A -> M B) w a w' :
  c w = (Ret a, w') -> bind c k w = k a w'.
Proof. intros H. unfold bind. now rewrite H. Qed.
Arguments bind_ret {A B c k w a w'} _.

Lemma continues_refl P w : continues P w w.
Proof. split; [lia|]. exists []. split; [reflexivity | constructor]. Qed.

Lemma continues_trans P w1 w2 w3 :
  continues P w1 w2 -> continues P w2 w3 -> continues P w1 w3.
Proof.
  intros [Hn1 (l1 & Ht1 & Hf1)] [Hn2 (l2 & Ht2 & Hf2)]. split; [lia|].
  exists (l2 ++ l1). split.
  - rewrite Ht2, Ht1. apply app_assoc.
  - apply Forall_app. now split.
Qed.

Lemma continues_weaken (P Q : Event -> Prop) w w' :
  (forall e, P e -> Q e) -> continues P w w' -> continues Q w w'.
Proof.
  intros HPQ [Hn (l & Ht & Hf)]. split; [exact Hn|].
  exists l. split; [exact Ht|]. eapply Forall_impl; eauto.
Qed.

Lemma continues_set_pod P w w' p :
  continues P w w' ->
  continues P w {| trace := trace w'; now := now w'; current_pod := p |}.
Proof. intros [Hn Hl]. split; assumption. Qed.

Lemma continues_intro (P : Event -> Prop) w w' added :
  now w <= now w' -> trace w' = added ++ trace w -> Forall P added ->
  continues P w w'.
Proof. intros Hn Ht Hf. split; [exact Hn|]. now exists added. Qed.

(** Case analysis on the next answer of the outside world. *)
Ltac case_answer :=
  match goal with
  | |- context [match ssh_connect ?e ?h with _ => _ end] =>
      destruct (ssh_connect e h) eqn:?
  | |- context [match ssh_exec ?e ?h with _ => _ end] =>
      destruct (ssh_exec e h) eqn:?
  | |- context [match chan_stdout ?e ?h with _ => _ end] =>
      destruct (chan_stdout e h) eqn:?
  | |- context [match chan_stderr ?e ?h with _ => _ end] =>
      destruct (chan_stderr e h) eqn:?
  | |- context [match utf8_decode ?b with _ => _ end] =>
      destruct (utf8_decode b) eqn:?
  | |- context [match chan_status ?e ?h with _ => _ end] =>
      destruct (chan_status e h) eqn:?
  end.

Ltac run_session :=
  cbv beta iota zeta delta
    [execute_ssh_command bind ret raise try_except of_failure of_reply
     decode determine_exit_status request after snd fst trace].

Ltac session_events :=
  repeat (constructor; [unfold session_event; tauto|]); constructor.

Section WithEnvironment.

Variable cfg : Config.
Variable env : Env.

Lemma request_eq e pause w :
  request env e pause w = (Ret (e :: trace w), after env e pause w).
Proof. reflexivity. Qed.

Lemma continues_after (P : Event -> Prop) e pause w :
  P e -> continues P w (after env e pause w).
Proof.
  intros He. split; [simpl; lia|].
  exists [e]. split; [reflexivity | now constructor].
Qed.

Lemma after_now e pause w :
  now w + pause <= now (after env e pause w).
Proof. simpl. lia. Qed.

(** [test_ssh_connection] never raises: without connection details it
    answers [False] at once, otherwise it makes one probe and reports
    whether the handshake went through. *)
Lemma test_ssh_connection_eq w :
  test_ssh_connection cfg env w =
  if no_connection_details cfg then (Ret false, w)
  else (Ret (match ssh_connect env (EvProbe :: trace w) with
             | None => true
             | Some _ => false
             end),
        after env EvProbe 0 w).
Proof.
  unfold test_ssh_connection.
  destruct (no_connection_details cfg); [reflexivity|].
  unfold try_except, bind. rewrite request_eq.
  destruct (ssh_connect env (EvProbe :: trace w)); reflexivity.
Qed.

Lemma test_ssh_connection_spec w :
  exists b w', test_ssh_connection cfg env w = (Ret b, w')
               /\ continues (polling_event cfg) w w'.
Proof.
  rewrite test_ssh_connection_eq.
  destruct (no_connection_details cfg); eexists _, _; split;
    try reflexivity.
  - apply continues_refl.
  - apply continues_after. now left.
Qed.

Lemma get_pod_info_spec w :
  exists o w', get_pod_info cfg env w = (Ret o, w')
               /\ continues (polling_event cfg) w w'.
Proof.
  unfold get_pod_info, try_except.
  destruct (truthy_str (api_key cfg)) eqn:Hkey; simpl.
  - unfold graphql, bind. rewrite request_eq.
    assert (Hc : continues (polling_event cfg) w
                   (after env (EvHttpPost Describe) 0 w))
      by (apply continues_after; right; right; now split).
    destruct (http_post env (EvHttpPost Describe :: trace w))
      as [e | code body].
    + eexists _, _; split; [reflexivity | exact Hc].
    + destruct (code =? 200)%Z.
      * destruct body; eexists _, _; split; try reflexivity; exact Hc.
      * eexists _, _; split; [reflexivity | exact Hc].
  - eexists _, _; split; [reflexivity | apply continues_refl].
Qed.

Lemma sleep_eq n w :
  sleep env n w = (Ret tt, after env (EvSleep n) n w).
Proof. reflexivity. Qed.

(** The polling loop returns: every iteration that goes round sleeps ten
    seconds, so the fuel outlasts the time budget. *)
Lemma wait_loop_terminates fuel : forall start_time timeout w,
  start_time <= now w ->
  timeout < now w - start_time + 10 * fuel ->
  exists b w', wait_loop cfg env fuel start_time timeout w = (Ret b, w')
               /\ continues (polling_event cfg) w w'.
Proof.
  induction fuel as [|fuel IH]; intros start_time timeout w Hstart Hfuel.
  - simpl. unfold bind, clock.
    destruct (now w - start_time <? timeout) eqn:E.
    + apply Nat.ltb_lt in E. lia.
    + eexists _, _; split; [reflexivity | apply continues_refl].
  - simpl. unfold bind at 1. unfold clock.
    destruct (now w - start_time <? timeout) eqn:E;
      [|eexists _, _; split; [reflexivity | apply continues_refl]].
    assert (Hround : forall w1, continues (polling_event cfg) w w1 ->
              exists b w',
                (sleep env 10 ;; wait_loop cfg env fuel start_time timeout) w1
                = (Ret b, w')
                /\ continues (polling_event cfg) w w').
    { intros w1 Hw1. unfold bind. rewrite sleep_eq.
      pose proof (after_now (EvSleep 10) 10 w1) as Hnow.
      destruct Hw1 as [Hn1 Hl1].
      destruct (IH start_time timeout (after env (EvSleep 10) 10 w1))
        as (b & w' & Heq & Hc); [lia | lia |].
      exists b, w'. split; [exact Heq|].
      eapply continues_trans; [|exact Hc].
      eapply continues_trans; [split; [exact Hn1 | exact Hl1]|].
      apply continues_after. right. now left. }
    destruct (get_pod_info_spec w) as (o & w1 & Hg & Hc1).
    rewrite (bind_ret Hg).
    destruct o as [info|]; [|apply Hround, Hc1].
    destruct (runtime info); [|apply Hround, Hc1].
    assert (Hreach : exists b w2,
               (if truthy_str (ssh_host cfg) && truthy_int (ssh_port cfg)
                then test_ssh_connection cfg env else ret false) w1
               = (Ret b, w2) /\ continues (polling_event cfg) w1 w2).
    { destruct (truthy_str (ssh_host cfg) && truthy_int (ssh_port cfg)).
      - apply test_ssh_connection_spec.
      - eexists _, _; split; [reflexivity | apply continues_refl]. }
    destruct Hreach as (b & w2 & Hr & Hc2).
    rewrite (bind_ret Hr).
    pose proof (continues_trans _ _ _ _ Hc1 Hc2) as Hc12.
    destruct b; [|apply Hround, Hc12].
    eexists _, _; split; [reflexivity|].
    apply continues_set_pod. exact Hc12.
Qed.

(** The world in which a successful probe has just been recorded as the
    current pod. *)
Lemma wait_for_pod_ready_fast timeout w :
  probe_succeeds cfg env (trace w) = true ->
  wait_for_pod_ready cfg env timeout w
  = (Ret true,
     {| trace := EvProbe :: trace w;
        now := now (after env EvProbe 0 w);
        current_pod := Some (running_status cfg) |}).
Proof.
  unfold probe_succeeds. intros H. apply andb_true_iff in H.
  destruct H as [Hd Hc]. apply negb_true_iff in Hd.
  unfold wait_for_pod_ready, bind, clock, try_except.
  rewrite test_ssh_connection_eq, Hd.
  destruct (ssh_connect env (EvProbe :: trace w)); [discriminate|].
  reflexivity.
Qed.

Lemma wait_for_pod_ready_spec timeout w :
  exists b w', wait_for_pod_ready cfg env timeout w = (Ret b, w')
               /\ continues (polling_event cfg) w w'.
Proof.
  unfold wait_for_pod_ready, bind at 1, clock.
  unfold bind at 1, try_except, bind at 1.
  rewrite test_ssh_connection_eq.
  destruct (no_connection_details cfg).
  - apply wait_loop_terminates; lia.
  - assert (Hp : continues (polling_event cfg) w (after env EvProbe 0 w))
      by (apply continues_after; now left).
    destruct (ssh_connect env (EvProbe :: trace w)).
    + destruct (wait_loop_terminates (S timeout) (now w) timeout
                  (after env EvProbe 0 w)) as (b & w' & Heq & Hc).
      * simpl. lia.
      * lia.
      * exists b, w'. split; [exact Heq|].
        eapply continues_trans; eassumption.
    + eexists _, _. split; [reflexivity|].
      apply continues_set_pod. exact Hp.
Qed.

(** [ensure_pod_running] when the probe at its entry fails and no
    start was asked for: failure at once. *)
Lemma ensure_pod_running_unreachable w :
  probe_succeeds cfg env (trace w) = false ->
  ensure_pod_running cfg env false w
  = (Ret false,
     if no_connection_details cfg then w else after env EvProbe 0 w).
Proof.
  unfold probe_succeeds, ensure_pod_running, bind. intros H.
  rewrite test_ssh_connection_eq.
  destruct (no_connection_details cfg); [reflexivity|].
  destruct (ssh_connect env (EvProbe :: trace w)); [reflexivity|].
  discriminate.
Qed.

(** ... and when it succeeds: [True] once [wait_for_pod_ready] is back,
    whatever it answered. *)
Lemma ensure_pod_running_reachable auto_start w :
  probe_succeeds cfg env (trace w) = true ->
  ensure_pod_running cfg env auto_start w
  = (Ret true,
     snd (wait_for_pod_ready cfg env 30 (after env EvProbe 0 w))).
Proof.
  unfold probe_succeeds. intros H. apply andb_true_iff in H.
  destruct H as [Hd Hc]. apply negb_true_iff in Hd.
  unfold ensure_pod_running. unfold bind at 1.
  rewrite test_ssh_connection_eq, Hd.
  destruct (ssh_connect env (EvProbe :: trace w)); [discriminate|].
  destruct (wait_for_pod_ready_spec 30 (after env EvProbe 0 w))
    as (b & w' & Heq & _).
  unfold bind. rewrite Heq. reflexivity.
Qed.

Lemma ensure_pod_running_spec w :
  exists b w', ensure_pod_running cfg env false w = (Ret b, w')
               /\ continues (polling_event cfg) w w'
               /\ b = probe_succeeds cfg env (trace w).
Proof.
  destruct (probe_succeeds cfg env (trace w)) eqn:Hp.
  - rewrite (ensure_pod_running_reachable false w Hp).
    destruct (wait_for_pod_ready_spec 30 (after env EvProbe 0 w))
      as (b & w' & Heq & Hc).
    rewrite Heq. exists true, w'. split; [reflexivity|]. split; [|reflexivity].
    eapply continues_trans; [|exact Hc]. apply continues_after. now left.
  - rewrite (ensure_pod_running_unreachable w Hp).
    eexists _, _. split; [reflexivity|]. split; [|reflexivity].
    destruct (no_connection_details cfg).
    + apply continues_refl.
    + apply continues_after. now left.
Qed.

Lemma polling_is_quiet e :
  polling_event cfg e ->
  is_start_or_stop e = false /\ is_command e = false /\ is_mkdir e = false.
Proof. intros [-> | [-> | [_ ->]]]; repeat split. Qed.

Lemma commands_of_app l h :
  commands_of (l ++ h) = commands_of l ++ commands_of h.
Proof.
  induction l as [|e l IH]; [reflexivity|].
  destruct e; simpl; rewrite IH; reflexivity.
Qed.

Lemma polling_dispatches_nothing l :
  Forall (polling_event cfg) l -> commands_of l = [].
Proof.
  induction 1 as [|e l He _ IH]; [reflexivity|].
  destruct He as [-> | [-> | [_ ->]]]; exact IH.
Qed.

(** [execute_ssh_command] never raises, and all it asks of the outside
    is an initial part of one session: connect, the command, close. *)
Lemma execute_ssh_command_session command timeout w :
  exists r w' added,
    execute_ssh_command cfg env command timeout w = (Ret r, w')
    /\ now w <= now w'
    /\ trace w' = added ++ trace w
    /\ In added [ [];
                  [EvSshConnect timeout];
                  [EvExec command; EvSshConnect timeout];
                  [EvSshClose; EvExec command; EvSshConnect timeout] ].
Proof.
  unfold execute_ssh_command.
  destruct (no_connection_details cfg).
  { exists (false, [], py "No SSH connection details available"), w, [].
    repeat split; [lia | now left]. }
  run_session. repeat (case_answer; run_session);
    (eexists _, _, _; split; [reflexivity|]);
    (split; [simpl; lia|]);
    solve
      [ split; [apply (eq_refl : _ = [EvSshConnect timeout] ++ trace w)|];
        simpl; tauto
      | split; [apply (eq_refl
                  : _ = [EvExec command; EvSshConnect timeout] ++ trace w)|];
        simpl; tauto
      | split; [apply (eq_refl
                  : _ = [EvSshClose; EvExec command; EvSshConnect timeout]
                        ++ trace w)|];
        simpl; tauto ].
Qed.

Lemma execute_ssh_command_spec command timeout w :
  exists r w',
    execute_ssh_command cfg env command timeout w = (Ret r, w')
    /\ continues (session_event command timeout) w w'.
Proof.
  destruct (execute_ssh_command_session command timeout w)
    as (r & w' & added & Heq & Hn & Ht & Hin).
  exists r, w'. split; [exact Heq|].
  apply (continues_intro _ _ _ added Hn Ht).
  simpl in Hin.
  destruct Hin as [<- | [<- | [<- | [<- | []]]]]; session_events.
Qed.


(** The session of a process that ran to completion. *)
Lemma execute_ssh_command_completed command timeout w
    raw_out raw_err status out err :
  no_connection_details cfg = false ->
  runs_to_completion env (trace w) command timeout raw_out raw_err status ->
  utf8_decode raw_out = Some out ->
  utf8_decode raw_err = Some err ->
  execute_ssh_command cfg env command timeout w
  = (Ret ((status_used status =? 0)%Z, out, err),
     after env EvSshClose 0
       (after env (EvExec command) 0 (after env (EvSshConnect timeout) 0 w))).
Proof.
  intros Hd (Hc & He & Ho & Hr & Hs) Hout Herr.
  unfold execute_ssh_command. rewrite Hd.
  unfold try_except, bind at 1. rewrite request_eq.
  unfold bind at 1. rewrite Hc. simpl of_failure. unfold ret at 1.
  unfold bind at 1. rewrite request_eq.
  unfold bind at 1.
  change (trace (after env (EvSshConnect timeout) 0 w))
    with (EvSshConnect timeout :: trace w).
  rewrite He. simpl of_failure. unfold ret at 1.
  unfold bind at 1. rewrite Ho. simpl of_reply. unfold ret at 1.
  unfold bind at 1, decode. rewrite Hout. unfold ret at 1.
  unfold bind at 1. rewrite Hr. simpl of_reply. unfold ret at 1.
  unfold bind at 1. rewrite Herr. unfold ret at 1.
  unfold bind at 1, determine_exit_status, try_except. rewrite Hs.
  destruct status; reflexivity.
Qed.

Lemma ensure_ready_fast_path_aux auto_start w :
  probe_succeeds cfg env (trace w) = true ->
  probe_succeeds cfg env (EvProbe :: trace w) = true ->
  trace (snd (ensure_pod_running cfg env auto_start w))
  = EvProbe :: EvProbe :: trace w.
Proof.
  intros Hp Hp2. rewrite (ensure_pod_running_reachable auto_start w Hp).
  rewrite (wait_for_pod_ready_fast 30 (after env EvProbe 0 w) Hp2).
  reflexivity.
Qed.

Lemma check_events_make_no_directory check l :
  Forall (check_event cfg check) l -> existsb is_mkdir l = false.
Proof.
  induction 1 as [|e l He _ IH]; [reflexivity|]. simpl. rewrite IH.
  destruct He as [Hp | [-> | [-> | ->]]]; try reflexivity.
  destruct (polling_is_quiet e Hp) as (_ & _ & ->). reflexivity.
Qed.

Lemma polling_removes_nothing e : polling_event cfg e -> no_removal e.
Proof. intros [-> | [-> | [_ ->]]]; exact I. Qed.

Lemma session_removes_nothing command timeout e :
  startswith (py "rm -f ") command = false ->
  session_event command timeout e -> no_removal e.
Proof. intros Hc [-> | [-> | ->]]; simpl; auto. Qed.

(** A command that is no removal, run through [execute_ssh_command]. *)
Lemma execute_ssh_command_keeps command w0 w :
  startswith (py "rm -f ") command = false ->
  continues no_removal w0 w ->
  exists r w',
    execute_ssh_command cfg env command 300 w = (Ret r, w')
    /\ continues no_removal w0 w'.
Proof.
  intros Hc Hw.
  destruct (execute_ssh_command_spec command 300 w) as (r & w' & Hx & Hs).
  exists r, w'. split; [exact Hx|].
  eapply continues_trans; [exact Hw|].
  eapply continues_weaken; [|exact Hs].
  intros e. apply session_removes_nothing. exact Hc.
Qed.

Lemma download_file_keeps remote_path local_path w0 w :
  continues no_removal w0 w ->
  exists b w',
    download_file cfg env remote_path local_path w = (Ret b, w')
    /\ continues no_removal w0 w'.
Proof.
  intros Hw. unfold download_file.
  destruct (no_connection_details cfg).
  { exists false, w. split; [reflexivity | exact Hw]. }
  unfold try_except, bind. rewrite request_eq.
  assert (Hc : continues no_removal w0
                 (after env (EvScpDownload remote_path local_path) 0 w)).
  { eapply continues_trans; [exact Hw|]. apply continues_after. exact I. }
  destruct (scp_run env (EvScpDownload remote_path local_path :: trace w));
    simpl; eexists _, _; (split; [reflexivity | exact Hc]).
Qed.

Lemma local_do_keeps op w0 w :
  continues no_removal w0 w ->
  exists o w',
    local_do env op w = (o, w')
    /\ continues no_removal w0 w'
    /\ (o = Ret tt \/ exists e, o = Raise e).
Proof.
  intros Hw. unfold local_do, bind. rewrite request_eq.
  assert (Hc : continues no_removal w0 (after env (EvLocal op) 0 w)).
  { eapply continues_trans; [exact Hw|]. apply continues_after. exact I. }
  destruct (local_raises env (EvLocal op :: trace w)) as [e|]; simpl;
    eexists _, _; (split; [reflexivity|]); (split; [exact Hc|]);
    [right; now exists e | now left].
Qed.

Lemma remove_if_present_keeps path w0 w :
  continues no_removal w0 w ->
  exists w',
    remove_if_present env path w = (Ret tt, w')
    /\ continues no_removal w0 w'.
Proof.
  intros Hw. unfold remove_if_present, try_except, local_exists.
  unfold bind at 1. unfold bind at 1. rewrite request_eq.
  set (w1 := after env (EvLocal (Exists path)) 0 w).
  assert (H1 : continues no_removal w0 w1).
  { eapply continues_trans; [exact Hw|]. apply continues_after. exact I. }
  unfold bind at 1.
  destruct (local_raises env (EvLocal (Exists path) :: trace w)); simpl;
    [eexists; split; [reflexivity | exact H1]|].
  destruct (local_test env (EvLocal (Exists path) :: trace w));
    [|eexists; split; [reflexivity | exact H1]].
  destruct (local_do_keeps (Unlink path) w0 w1 H1)
    as (o & w' & Heq & Hc & Ho).
  rewrite Heq. destruct Ho as [-> | [e ->]];
    eexists; (split; [reflexivity | exact Hc]).
Qed.

(** The extraction stage never raises: a failed extraction is caught,
    and so is a failed clean-up of the local archive. *)
Lemma extraction_stage_keeps archive target w0 w :
  continues no_removal w0 w ->
  exists extracted w',
    try_finally
      (try_except
         (local_do env (Extract archive target) ;; ret true)
         (fun _ => ret false))
      (remove_if_present env archive) w
    = (Ret extracted, w')
    /\ continues no_removal w0 w'.
Proof.
  intros Hw. unfold try_finally, try_except. unfold bind at 1.
  destruct (local_do_keeps (Extract archive target) w0 w Hw)
    as (o & w1 & Heq & Hc & Ho).
  rewrite Heq.
  destruct (remove_if_present_keeps archive w0 w1 Hc) as (w2 & Hrm & Hc2).
  destruct Ho as [-> | [e ->]]; simpl; rewrite Hrm;
    eexists _, _; (split; [reflexivity | exact Hc2]).
Qed.

Lemma not_a_removal_check d : startswith (py "rm -f ") (check_cmd d) = false.
Proof. reflexivity. Qed.

Lemma not_a_removal_parent d :
  startswith (py "rm -f ") (parent_dir_cmd d) = false.
Proof. reflexivity. Qed.

Lemma not_a_removal_name d :
  startswith (py "rm -f ") (remote_name_cmd d) = false.
Proof. reflexivity. Qed.

Lemma not_a_removal_tar a b c :
  startswith (py "rm -f ") (tar_cmd a b c) = false.
Proof. reflexivity. Qed.

(** [download_and_extract_outputs] removes the remote archive on its
    way to success only: whenever it does not return a directory, no
    [rm -f] has been dispatched. *)
Lemma download_removes_on_success_only
    remote_dir local_base_dir archive_name_prefix w :
  exists o w',
    download_and_extract_outputs cfg env remote_dir local_base_dir
      archive_name_prefix w = (o, w')
    /\ ((exists target, o = Ret (Some target))
        \/ continues no_removal w w').
Proof.
  unfold download_and_extract_outputs.
  destruct (ensure_pod_running_spec w) as (b & w1 & Heq & Hc1 & _).
  apply (continues_weaken _ _ _ _ polling_removes_nothing) in Hc1.
  rewrite (bind_ret Heq).
  destruct b; cbv beta iota zeta delta [negb];
    [|eexists _, _; split; [reflexivity | now right]].
  destruct (execute_ssh_command_keeps _ w w1
              (not_a_removal_check (strip remote_dir)) Hc1)
    as (r1 & w2 & Hx1 & Hc2).
  rewrite (bind_ret Hx1).
  match goal with
  | |- context [if ?c then ret None else _] => destruct c
  end; [eexists _, _; split; [reflexivity | now right]|].
  unfold bind at 1, clock.
  destruct (execute_ssh_command_keeps _ w w2
              (not_a_removal_parent (strip remote_dir)) Hc2)
    as (r2 & w3 & Hx2 & Hc3).
  rewrite (bind_ret Hx2).
  match goal with
  | |- context [if ?c then ret None else _] => destruct c
  end; [eexists _, _; split; [reflexivity | now right]|].
  destruct (execute_ssh_command_keeps _ w w3
              (not_a_removal_name (strip remote_dir)) Hc3)
    as (r3 & w4 & Hx3 & Hc4).
  rewrite (bind_ret Hx3).
  match goal with
  | |- context [if ?c then ret None else _] => destruct c
  end; [eexists _, _; split; [reflexivity | now right]|].
  match goal with
  | |- context [execute_ssh_command cfg env (tar_cmd ?a ?b ?c) 300] =>
      destruct (execute_ssh_command_keeps _ w w4
                  (not_a_removal_tar a b c) Hc4)
        as (r4 & w5 & Hx4 & Hc5)
  end.
  rewrite (bind_ret Hx4).
  match goal with
  | |- context [if ?c then ret None else _] => destruct c
  end; [eexists _, _; split; [reflexivity | now right]|].
  match goal with
  | |- context [download_file cfg env ?a ?b] =>
      destruct (download_file_keeps a b w w5 Hc5)
        as (got & w6 & Hd & Hc6)
  end.
  rewrite (bind_ret Hd).
  destruct got; [|eexists _, _; split; [reflexivity | now right]].
  match goal with
  | |- context [local_do env (Mkdir ?t)] =>
      destruct (local_do_keeps (Mkdir t) w w6 Hc6)
        as (o & w7 & Hm & Hc7 & Ho)
  end.
  unfold bind at 1. rewrite Hm.
  destruct Ho as [-> | [e ->]];
    [|eexists _, _; split; [reflexivity | now right]].
  match goal with
  | |- context [local_do env (Extract ?a ?t)] =>
      destruct (extraction_stage_keeps a t w w7 Hc7)
        as (extracted & w8 & He & Hc8)
  end.
  rewrite (bind_ret He).
  destruct extracted;
    [|eexists _, _; split; [reflexivity | now right]].
  match goal with
  | |- context [execute_ssh_command cfg env (rm_cmd ?a) 300] =>
      destruct (execute_ssh_command_spec (rm_cmd a) 300 w8)
        as (r5 & w9 & Hx5 & _)
  end.
  rewrite (bind_ret Hx5).
  eexists _, _. split; [reflexivity|]. left. eexists. reflexivity.
Qed.

End WithEnvironment.

(** *** The command channel *)

(** C1 (as amended).  When the remote process runs to completion with a
    non-zero exit status (3, say) and both streams are valid UTF-8,
    [execute_ssh_command] returns the triple [(False, stdout, stderr)]
    holding exactly the text the process wrote.  The triple has no
    exit-code component: of the status only [status == 0] is kept. *)
Theorem execute_reports_nonzero_exit cfg env command timeout w
    raw_out raw_err status out err :
  no_connection_details cfg = false ->
  runs_to_completion env (trace w) command timeout raw_out raw_err
                     (Fine status) ->
  utf8_decode raw_out = Some out ->
  utf8_decode raw_err = Some err ->
  status <> 0%Z ->
  fst (execute_ssh_command cfg env command timeout w)
  = Ret (false, out, err).
Proof.
  intros Hd Hrun Hout Herr Hst.
  rewrite (execute_ssh_command_completed cfg env command timeout w
             raw_out raw_err (Fine status) out err Hd Hrun Hout Herr).
  simpl. destruct (Z.eqb_spec status 0); [contradiction | reflexivity].
Qed.

Lemma execute_reports_nonzero_exit_witness :
  fst (execute_ssh_command (sample_cfg None) (exits_with 3)
         (py "python3 job.py") 300 fresh)
  = Ret (false, py "3 files skipped", py "disk quota exceeded").
Proof.
  apply (execute_reports_nonzero_exit (sample_cfg None) (exits_with 3)
           (py "python3 job.py") 300 fresh
           (ascii_bytes "3 files skipped")
           (ascii_bytes "disk quota exceeded") 3).
  - reflexivity.
  - repeat split.
  - reflexivity.
  - reflexivity.
  - discriminate.
Defined.

(** C1 as stated fails: the value returned after exit status 3 is the
    value returned after exit status 4, so no field of it is the remote
    exit code; and a process that writes a byte that is not UTF-8 before
    it exits with status 3 gets an empty [stdout] back. *)
Lemma execute_result_has_no_exit_code :
  let run env :=
    fst (execute_ssh_command (sample_cfg None) env
           (py "python3 job.py") 300 fresh) in
  run (exits_with 3) = run (exits_with 4)
  /\ ~ (exists exit_code : Outcome CommandResult -> Z,
           exit_code (run (exits_with 3)) = 3%Z
           /\ exit_code (run (exits_with 4)) = 4%Z)
  /\ run (worker always (fun _ => [xff]) silent (Fine 3%Z) None 0)
     = Ret (false, [],
            py "'utf-8' codec can't decode byte 0xff in position 0: invalid start byte").
Proof.
  assert (Heq :
    fst (execute_ssh_command (sample_cfg None) (exits_with 3)
           (py "python3 job.py") 300 fresh)
    = fst (execute_ssh_command (sample_cfg None) (exits_with 4)
             (py "python3 job.py") 300 fresh)) by reflexivity.
  split; [exact Heq|]. split; [|reflexivity].
  intros (exit_code & H3 & H4). rewrite Heq in H3. congruence.
Qed.

(** C3 (as amended).  When the session connects, the command is
    dispatched and both streams are read and decode, a read of the
    exit status that raises is taken as status 0 and the result
    reports success.  A read that returns is taken as it is, so the
    result reports success only for 0: the -1 that stands for a
    channel closed without an exit status reports failure. *)
Theorem execute_defaults_to_success cfg env command timeout w
    raw_out raw_err status out err :
  no_connection_details cfg = false ->
  runs_to_completion env (trace w) command timeout raw_out raw_err status ->
  utf8_decode raw_out = Some out ->
  utf8_decode raw_err = Some err ->
  match status with
  | Throws _ =>
      (forall w', fst (determine_exit_status env
                         (EvExec command :: EvSshConnect timeout :: trace w)
                         w')
                  = Ret 0%Z)
      /\ fst (execute_ssh_command cfg env command timeout w)
         = Ret (true, out, err)
  | Fine n =>
      (forall w', fst (determine_exit_status env
                         (EvExec command :: EvSshConnect timeout :: trace w)
                         w')
                  = Ret n)
      /\ fst (execute_ssh_command cfg env command timeout w)
         = Ret ((n =? 0)%Z, out, err)
  end.
Proof.
  intros Hd Hrun Hout Herr.
  pose proof (execute_ssh_command_completed cfg env command timeout w
                raw_out raw_err status out err Hd Hrun Hout Herr) as Hx.
  destruct Hrun as (_ & _ & _ & _ & Hs). simpl in Hs.
  destruct status as [n | e]; (split; [|rewrite Hx; reflexivity]);
    intros w'; unfold determine_exit_status, try_except; rewrite Hs;
    reflexivity.
Qed.

Lemma execute_defaults_to_success_witness :
  (forall w', fst (determine_exit_status status_read_raises
                     [EvExec (py "python3 job.py"); EvSshConnect 300] w')
              = Ret 0%Z)
  /\ fst (execute_ssh_command (sample_cfg None) status_read_raises
            (py "python3 job.py") 300 fresh)
     = Ret (true, py "step 1 done", []).
Proof.
  apply (execute_defaults_to_success (sample_cfg None) status_read_raises
           (py "python3 job.py") 300 fresh
           (ascii_bytes "step 1 done") []
           (Throws (Exception (py "status read failed")))).
  - reflexivity.
  - repeat split.
  - reflexivity.
  - reflexivity.
Defined.

(** C3 as stated fails for the channel that closes abnormally: the
    read of the exit status returns -1 there instead of raising, no
    default is taken, and the result reports failure, with the output
    read so far. *)
Lemma channel_closed_reports_failure :
  runs_to_completion channel_closed (trace fresh) (py "python3 job.py") 300
    (ascii_bytes "step 1 done") [] (Fine (-1)%Z)
  /\ fst (determine_exit_status channel_closed
            [EvExec (py "python3 job.py"); EvSshConnect 300] fresh)
     = Ret (-1)%Z
  /\ fst (execute_ssh_command (sample_cfg None) channel_closed
            (py "python3 job.py") 300 fresh)
     = Ret (false, py "step 1 done", []).
Proof. vm_compute. repeat split. Qed.

(** *** The lifecycle controller *)

(** What does hold of the fast path: when the probe at the entry of
    [ensure_pod_running] succeeds the call returns [True], whatever the
    control plane is or answers; all it asks of the outside is probes,
    ten-second sleeps and, with an API key only, descriptions of the
    pod.  When the probe repeated by [wait_for_pod_ready] succeeds too,
    nothing but these two probes is asked and the current pod is
    recorded. *)
Lemma ensure_ready_fast_path cfg env auto_start w :
  probe_succeeds cfg env (trace w) = true ->
  fst (ensure_pod_running cfg env auto_start w) = Ret true
  /\ continues (polling_event cfg) w
       (snd (ensure_pod_running cfg env auto_start w))
  /\ (probe_succeeds cfg env (EvProbe :: trace w) = true ->
      trace (snd (ensure_pod_running cfg env auto_start w))
      = EvProbe :: EvProbe :: trace w
      /\ current_pod (snd (ensure_pod_running cfg env auto_start w))
         = Some (running_status cfg)).
Proof.
  intros Hp. rewrite (ensure_pod_running_reachable cfg env auto_start w Hp).
  split; [reflexivity|]. split.
  - destruct (wait_for_pod_ready_spec cfg env 30 (after env EvProbe 0 w))
      as (b & w' & Heq & Hc).
    rewrite Heq. simpl.
    eapply continues_trans; [|exact Hc]. apply continues_after. now left.
  - intros Hp2.
    rewrite (wait_for_pod_ready_fast cfg env 30 (after env EvProbe 0 w) Hp2).
    split; reflexivity.
Qed.

(** C5.  The fast path is not independent of the control plane.  With
    an API key configured and a worker that answers the first probe
    only, [ensure_pod_running], with or without [auto_start], returns
    [True] on the strength of the probe at its entry, but only after
    [wait_for_pod_ready(timeout=30)] has used up its time: the pod was
    described three times, each description followed by a failed probe
    and a sleep of ten seconds.  The call returns with no current pod
    on record, although its docstring promises [True] only when
    [manager.current_pod] is populated, and [setup_workspace] right
    after it answers [False] without running a command. *)
Theorem fast_path_consults_control_plane auto_start :
  let cfg := sample_cfg (Some (py "rpa_XXXX")) in
  let env := worker first_probe_only silent silent (Fine 0%Z)
                    (Some {| runtime := true |}) 0 in
  let out := ensure_pod_running cfg env auto_start fresh in
  probe_succeeds cfg env (trace fresh) = true
  /\ fst out = Ret true
  /\ rev (trace (snd out))
     = [EvProbe; EvProbe;
        EvHttpPost Describe; EvProbe; EvSleep 10;
        EvHttpPost Describe; EvProbe; EvSleep 10;
        EvHttpPost Describe; EvProbe; EvSleep 10]
  /\ existsb is_control_plane (trace (snd out)) = true
  /\ current_pod (snd out) = None
  /\ fst (Operations.setup_workspace cfg env (snd out)) = Ret false.
Proof. vm_compute. repeat split. Qed.

(** What does hold without [auto_start]: [ensure_pod_running] never
    starts or stops the pod, whatever the probes answer: it returns
    whether the probe at its entry succeeded, and all it asks of the
    outside is probes, ten-second sleeps and, with an API key only,
    descriptions of the pod.  When that probe fails it returns at once,
    having asked nothing else; when it and the repeated probe succeed,
    it has asked for these two probes only. *)
Lemma ensure_ready_without_autostart cfg env w :
  fst (ensure_pod_running cfg env false w)
  = Ret (probe_succeeds cfg env (trace w))
  /\ continues
       (fun e => polling_event cfg e /\ is_start_or_stop e = false) w
       (snd (ensure_pod_running cfg env false w))
  /\ (probe_succeeds cfg env (trace w) = false ->
      snd (ensure_pod_running cfg env false w)
      = if no_connection_details cfg then w else after env EvProbe 0 w)
  /\ (probe_succeeds cfg env (trace w) = true ->
      probe_succeeds cfg env (EvProbe :: trace w) = true ->
      trace (snd (ensure_pod_running cfg env false w))
      = EvProbe :: EvProbe :: trace w).
Proof.
  destruct (ensure_pod_running_spec cfg env w) as (b & w' & Heq & Hc & Hb).
  split; [rewrite Heq, Hb; reflexivity|]. split.
  - rewrite Heq. simpl. eapply continues_weaken; [|exact Hc].
    intros e He. split; [exact He|]. now apply (polling_is_quiet cfg).
  - split.
    + intros Hp. rewrite (ensure_pod_running_unreachable cfg env w Hp).
      reflexivity.
    + intros Hp Hp2.
      apply (ensure_ready_fast_path_aux cfg env false w Hp Hp2).
Qed.

(** C9.  Without [auto_start] the call does more than probe.  With an
    API key configured, a worker that answers the first probe only and
    a control plane that knows no such pod, [ensure_pod_running()]
    asks for no start and no stop, but after its two probes it
    describes the pod three times, sleeping ten seconds after each,
    before it returns [True]; thirty seconds and more have gone by,
    and no current pod is on record. *)
Theorem ensure_ready_without_autostart_describes :
  let cfg := sample_cfg (Some (py "rpa_XXXX")) in
  let env := worker first_probe_only silent silent (Fine 0%Z) None 0 in
  let out := ensure_pod_running cfg env false fresh in
  probe_succeeds cfg env (trace fresh) = true
  /\ fst out = Ret true
  /\ rev (trace (snd out))
     = [EvProbe; EvProbe;
        EvHttpPost Describe; EvSleep 10;
        EvHttpPost Describe; EvSleep 10;
        EvHttpPost Describe; EvSleep 10]
  /\ existsb is_start_or_stop (trace (snd out)) = false
  /\ existsb is_control_plane (trace (snd out)) = true
  /\ 30 <= now (snd out) - now fresh
  /\ current_pod (snd out) = None.
Proof. vm_compute. repeat split; repeat constructor. Qed.

(** *** Purging a remote directory *)

(** C4 (as amended).  For every path whose stripped text does not begin
    with [/workspace], [clear_remote_directory] returns [False] and
    dispatches no command: beyond the readiness check at its entry it
    asks nothing of the outside. *)
Theorem clear_remote_directory_refuses cfg env remote_dir w :
  startswith (py "/workspace") (strip remote_dir) = false ->
  clear_remote_directory cfg env remote_dir w
  = (Ret false, snd (ensure_pod_running cfg env false w))
  /\ continues (polling_event cfg) w
       (snd (clear_remote_directory cfg env remote_dir w))
  /\ commands_of (trace (snd (clear_remote_directory cfg env remote_dir w)))
     = commands_of (trace w).
Proof.
  intros Hguard.
  destruct (ensure_pod_running_spec cfg env w) as (b & w' & Heq & Hc & _).
  assert (Hclear : clear_remote_directory cfg env remote_dir w
                   = (Ret false, w')).
  { unfold clear_remote_directory, bind. rewrite Heq.
    destruct b; cbv beta iota zeta delta [negb];
      [rewrite Hguard|]; reflexivity. }
  rewrite Hclear, Heq. simpl. split; [reflexivity|]. split; [exact Hc|].
  destruct Hc as [_ (added & Ht & Hf)].
  rewrite Ht, commands_of_app, (polling_dispatches_nothing cfg added Hf).
  reflexivity.
Qed.

Lemma clear_remote_directory_refuses_witness :
  let cfg := sample_cfg None in
  let env := worker always silent silent (Fine 0%Z) None 0 in
  clear_remote_directory cfg env (py "/home/user/data") fresh
  = (Ret false, snd (ensure_pod_running cfg env false fresh))
  /\ continues (polling_event cfg) fresh
       (snd (clear_remote_directory cfg env (py "/home/user/data") fresh))
  /\ commands_of
       (trace (snd (clear_remote_directory cfg env (py "/home/user/data")
                      fresh)))
     = commands_of (trace fresh).
Proof.
  apply (clear_remote_directory_refuses (sample_cfg None)
           (worker always silent silent (Fine 0%Z) None 0)
           (py "/home/user/data") fresh).
  reflexivity.
Defined.

(** C4 as stated fails: a path argument that does not begin with
    [/workspace] because of a leading blank is stripped first, accepted,
    and its contents are removed. *)
Lemma clear_remote_directory_strips_first :
  let cfg := sample_cfg None in
  let env := worker always silent silent (Fine 0%Z) None 0 in
  let remote_dir := py " /workspace/data/outputs" in
  startswith (py "/workspace") remote_dir = false
  /\ fst (clear_remote_directory cfg env remote_dir fresh) = Ret true
  /\ commands_of (trace (snd (clear_remote_directory cfg env remote_dir fresh)))
     = [py "bash -lc 'set -e; mkdir -p /workspace/data/outputs; rm -rf /workspace/data/outputs/*'"].
Proof. vm_compute. repeat split. Qed.




(** *** Fetching artifacts *)

(** C8.  When the existence check on the remote directory does not come
    back with OK (the directory is not there, or the check itself
    fails), [download_and_extract_outputs] returns [None]; beyond the
    readiness check at its entry it has run at most one command, the
    existence check, so no archive was made, nothing was transferred
    and no local directory was created. *)
Theorem download_of_missing_directory cfg env
    remote_dir local_base_dir archive_name_prefix w :
  check_passes
    (fst (execute_ssh_command cfg env (check_cmd (strip remote_dir)) 300
            (snd (ensure_pod_running cfg env false w)))) = false ->
  fst (download_and_extract_outputs cfg env remote_dir local_base_dir
         archive_name_prefix w) = Ret None
  /\ exists added,
      trace (snd (download_and_extract_outputs cfg env remote_dir
                    local_base_dir archive_name_prefix w))
      = added ++ trace w
      /\ Forall (check_event cfg (check_cmd (strip remote_dir))) added
      /\ (commands_of added = []
          \/ commands_of added = [check_cmd (strip remote_dir)])
      /\ existsb is_mkdir added = false.
Proof.
  intros Hmissing.
  destruct (ensure_pod_running_spec cfg env w)
    as (b & w1 & Heq & [_ (added1 & Ht1 & Hf1)] & _).
  rewrite Heq in Hmissing. simpl snd in Hmissing.
  destruct (execute_ssh_command_session cfg env
              (check_cmd (strip remote_dir)) 300 w1)
    as (r & w2 & added2 & Hx & _ & Ht2 & Hin).
  rewrite Hx in Hmissing. simpl in Hmissing.
  assert (Hfetch :
    download_and_extract_outputs cfg env remote_dir local_base_dir
      archive_name_prefix w
    = (Ret None, if b then w2 else w1)).
  { unfold download_and_extract_outputs. unfold bind at 1. rewrite Heq.
    destruct b; [|reflexivity].
    change (negb true) with false. cbv beta iota zeta.
    unfold bind at 1. rewrite Hx.
    destruct (cr_success r), (contains (py "OK") (cr_stdout r));
      try reflexivity; discriminate. }
  rewrite Hfetch. simpl. split; [reflexivity|].
  assert (Hf1' : Forall (check_event cfg (check_cmd (strip remote_dir)))
                        added1).
  { eapply Forall_impl; [|exact Hf1]. intros e He. now left. }
  destruct b.
  - exists (added2 ++ added1).
    assert (Hf2 : Forall (check_event cfg (check_cmd (strip remote_dir)))
                         added2).
    { simpl in Hin.
      destruct Hin as [<- | [<- | [<- | [<- | []]]]];
        repeat (constructor; [right; unfold session_event; tauto|]);
        constructor. }
    assert (Hall : Forall (check_event cfg (check_cmd (strip remote_dir)))
                          (added2 ++ added1))
      by (apply Forall_app; now split).
    split; [rewrite Ht2, Ht1; apply app_assoc|].
    split; [exact Hall|]. split.
    + rewrite commands_of_app, (polling_dispatches_nothing cfg added1 Hf1).
      simpl in Hin.
      destruct Hin as [<- | [<- | [<- | [<- | []]]]]; simpl; tauto.
    + apply (check_events_make_no_directory cfg _ _ Hall).
  - exists added1. split; [exact Ht1|]. split; [exact Hf1'|]. split.
    + left. apply (polling_dispatches_nothing cfg added1 Hf1).
    + apply (check_events_make_no_directory cfg _ _ Hf1').
Qed.

Lemma download_of_missing_directory_witness :
  let cfg := sample_cfg None in
  let env := worker always (fun _ => ascii_bytes "MISSING") silent
                    (Fine 0%Z) None 0 in
  let remote_dir := py "/workspace/data/no_such_dir" in
  fst (download_and_extract_outputs cfg env remote_dir
         (py "data/output_images") (py "facial_outputs") fresh) = Ret None
  /\ exists added,
      trace (snd (download_and_extract_outputs cfg env remote_dir
                    (py "data/output_images") (py "facial_outputs") fresh))
      = added ++ trace fresh
      /\ Forall (check_event cfg (check_cmd (strip remote_dir))) added
      /\ (commands_of added = []
          \/ commands_of added = [check_cmd (strip remote_dir)])
      /\ existsb is_mkdir added = false.
Proof.
  apply (download_of_missing_directory (sample_cfg None)
           (worker always (fun _ => ascii_bytes "MISSING") silent
                   (Fine 0%Z) None 0)
           (py "/workspace/data/no_such_dir")
           (py "data/output_images") (py "facial_outputs") fresh).
  reflexivity.
Defined.

(** C2.  The remote archive outlives a transfer that fails after the
    archive was made.  Fetching [/workspace/data/outputs] from a worker
    that answers every command, (1) when the download of the archive
    fails, and (2) when the local extraction fails, the call returns
    [None] having dispatched the four commands up to the one that makes
    the archive and no [rm -f] of it; (3) when all goes well the fifth
    command removes the archive.  (4) Pushing a project whose remote
    extraction fails dispatches the one chained command and nothing
    after it. *)
Theorem failed_transfer_leaves_remote_archive :
  let cfg := sample_cfg None in
  let remote_dir := py "/workspace/data/outputs" in
  let archive := py "/workspace/facial_outputs_20240102_030405.tar.gz" in
  let up_to_archive :=
    [ check_cmd remote_dir; parent_dir_cmd remote_dir;
      remote_name_cmd remote_dir;
      py "tar -C '/workspace/data' -czf '/workspace/facial_outputs_20240102_030405.tar.gz' 'outputs'" ] in
  let fetch env :=
    download_and_extract_outputs cfg env remote_dir
      (py "data/output_images") (py "facial_outputs") fresh in
  let download_fails :=
    fetch (worker always outputs_listing silent (Fine 0%Z) None 1) in
  let extract_fails :=
    fetch (extraction_fails
             (worker always outputs_listing silent (Fine 0%Z) None 0)) in
  let all_well :=
    fetch (worker always outputs_listing silent (Fine 0%Z) None 0) in
  let push_fails :=
    upload_project_files cfg
      (worker always silent silent (Fine 2%Z) None 0) (py "./") fresh in
  (fst download_fails = Ret None
   /\ rev (commands_of (trace (snd download_fails))) = up_to_archive
   /\ hd_error (trace (snd download_fails))
      = Some (EvScpDownload archive
                (py "facial_outputs_20240102_030405.tar.gz")))
  /\ (fst extract_fails = Ret None
      /\ rev (commands_of (trace (snd extract_fails))) = up_to_archive
      /\ hd_error (trace (snd extract_fails))
         = Some (EvLocal
                   (Unlink (py "facial_outputs_20240102_030405.tar.gz"))))
  /\ (fst all_well
      = Ret (Some {| parent := py "data/output_images";
                     leaf := py "batch_20240102_030405" |})
      /\ rev (commands_of (trace (snd all_well)))
         = up_to_archive
           ++ [py "rm -f /workspace/facial_outputs_20240102_030405.tar.gz"])
  /\ (fst push_fails = Ret false
      /\ commands_of (trace (snd push_fails))
         = [py "cd /workspace && tar -xzf '/workspace/project_k3x9.tar.gz' && rm -f '/workspace/project_k3x9.tar.gz'"]
      /\ hd_error (trace (snd push_fails)) = Some EvSshClose).
Proof. vm_compute. repeat split. Qed.

End RemoteFacts.



(* ===================================================================== *)
(** ** More about the retention manager *)
(* ===================================================================== *)

Module RetentionMore.
Import Retention PyStrFacts RetentionFacts.

Local Open Scope Z_scope.

Lemma in_skipn {A : Type} (x : A) n l : In x (skipn n l) -> In x l.
Proof.
  intros H. rewrite <- (firstn_skipn n l). apply in_or_app. now right.
Qed.

Lemma in_firstn {A : Type} (x : A) n l : In x (firstn n l) -> In x l.
Proof.
  intros H. rewrite <- (firstn_skipn n l). apply in_or_app. now left.
Qed.

Lemma to_remove_incl sorted keep : incl (to_remove sorted keep) sorted.
Proof.
  intros x Hx. unfold to_remove in Hx.
  destruct (keep >=? 0); [now apply in_skipn in Hx | contradiction].
Qed.

Lemma sorted_candidates_incl es :
  incl (sort_newest_first (candidates_of es)) es.
Proof.
  intros x Hx. apply candidates_incl.
  eapply Permutation_in; [apply sort_newest_first_perm | exact Hx].
Qed.

Lemma deletable_removed_incl es keep :
  incl (filter deletable
          (to_remove (sort_newest_first (candidates_of es)) keep)) es.
Proof.
  intros x Hx. apply filter_In in Hx. destruct Hx as [Hx _].
  apply to_remove_incl in Hx. now apply sorted_candidates_incl.
Qed.

(** What [prune_local_batches] leaves of a directory. *)
Lemma prune_directory es keep :
  prune_local_batches (Directory es) keep
  = (Ret (List.length
            (to_remove (sort_newest_first (candidates_of es)) keep)),
     Directory
       (filter
          (fun e =>
             negb (named_in
                     (filter deletable
                        (to_remove (sort_newest_first (candidates_of es))
                           keep)) e))
          es)).
Proof.
  pose proof (prune_count_is_length es keep) as Hc.
  unfold prune_local_batches in *.
  pose proof (remove_loop_result
                (to_remove (sort_newest_first (candidates_of es)) keep) 0 es)
    as Hs.
  destruct (remove_loop _ 0 es) as [n es']. simpl in *.
  inversion Hc. now subst.
Qed.

(** X1.  Whatever [keep] is, [prune_local_batches] creates nothing and
    deletes nothing but batch directories: every entry left was there
    before, and every entry that is not a directory named [batch_...]
    is still there. *)
Theorem prune_touches_batches_only es keep :
  NoDup (map name es) ->
  exists n es',
    prune_local_batches (Directory es) keep = (Ret n, Directory es')
    /\ incl es' es
    /\ (forall e, In e es -> is_candidate e = false -> In e es').
Proof.
  intros Hnd. rewrite prune_directory. eexists _, _.
  split; [reflexivity|]. split.
  - intros e He. apply filter_In in He. apply He.
  - intros e He Hnot. apply filter_In. split; [exact He|].
    destruct (named_in _ e) eqn:E; [|reflexivity].
    apply (named_in_spec es _ e Hnd (deletable_removed_incl es keep) He) in E.
    apply filter_In in E. destruct E as [E _].
    apply to_remove_incl in E.
    apply (Permutation_in _ (sort_newest_first_perm _)) in E.
    unfold candidates_of in E. apply filter_In in E.
    destruct E as [_ E]. congruence.
Qed.

Lemma prune_touches_batches_only_witness :
  exists n es',
    prune_local_batches (Directory five_batches) 1 = (Ret n, Directory es')
    /\ incl es' five_batches
    /\ (forall e, In e five_batches -> is_candidate e = false -> In e es').
Proof.
  apply (prune_touches_batches_only five_batches 1).
  repeat (constructor; [simpl; intuition discriminate|]). constructor.
Defined.

Lemma prune_result_count es keep :
  0 <= keep ->
  fst (prune_local_batches (Directory es) keep)
  = Ret (List.length (candidates_of es) - Z.to_nat keep)%nat
  /\ (Z.of_nat (List.length (candidates_of es)) <= keep ->
      prune_local_batches (Directory es) keep = (Ret 0%nat, Directory es)).
Proof.
  intros Hk. rewrite prune_directory. unfold to_remove.
  destruct (keep >=? 0) eqn:E; [|lia]. split.
  - simpl. rewrite length_skipn.
    now rewrite (Permutation_length (sort_newest_first_perm _)).
  - intros Hfew. rewrite skipn_all2.
    + simpl. f_equal. f_equal. clear.
      induction es as [|e es IH]; simpl; [reflexivity | now f_equal].
    + rewrite (Permutation_length (sort_newest_first_perm _)). lia.
Qed.

(** X2.  For [keep >= 0] the count returned is the number of batch
    directories beyond [keep]; when there are no more than [keep] of
    them nothing is deleted and 0 is returned. *)
Theorem prune_count es keep :
  0 <= keep ->
  fst (prune_local_batches (Directory es) keep)
  = Ret (List.length (candidates_of es) - Z.to_nat keep)%nat
  /\ (Z.of_nat (List.length (candidates_of es)) <= keep ->
      prune_local_batches (Directory es) keep = (Ret 0%nat, Directory es)).
Proof. exact (prune_result_count es keep). Qed.

Lemma prune_count_witness :
  fst (prune_local_batches (Directory five_batches) 7)
  = Ret (List.length (candidates_of five_batches) - Z.to_nat 7)%nat
  /\ (Z.of_nat (List.length (candidates_of five_batches)) <= 7 ->
      prune_local_batches (Directory five_batches) 7
      = (Ret 0%nat, Directory five_batches)).
Proof. apply (prune_count five_batches 7). lia. Defined.

Lemma nodup_entries es : NoDup (map name es) -> NoDup es.
Proof. apply NoDup_map_inv. Qed.

Lemma firstn_skipn_disjoint {A : Type} (l : list A) n x :
  NoDup l -> In x (firstn n l) -> In x (skipn n l) -> False.
Proof.
  intros Hnd H1 H2. rewrite <- (firstn_skipn n l) in Hnd.
  revert Hnd H1 H2. generalize (firstn n l) (skipn n l).
  intros l1 l2. induction l1 as [|a l1 IH]; simpl; intros Hnd H1 H2.
  - contradiction.
  - inversion Hnd as [|? ? Hnot Hnd']; subst. destruct H1 as [-> | H1].
    + apply Hnot. apply in_or_app. now right.
    + now apply IH.
Qed.

Lemma sorted_split_ordered (l : list DirEntry) n k r :
  StronglySorted not_older l ->
  In k (firstn n l) -> In r (skipn n l) -> st_mtime r <= st_mtime k.
Proof.
  intros Hs. revert n. induction Hs as [|a l Hs IH Hall]; intros n Hk Hr.
  - rewrite firstn_nil in Hk. contradiction.
  - destruct n as [|n]; simpl in Hk, Hr; [contradiction|].
    destruct Hk as [<- | Hk].
    + rewrite Forall_forall in Hall. apply Hall. now apply in_skipn in Hr.
    + now apply (IH n).
Qed.

(** X3.  For [keep >= 0] the first [keep] batch directories in the order
    newest first are still there afterwards, whether or not deletions
    go through, and none of them is older than a directory handed to
    [rmtree]. *)
Theorem prune_keeps_the_newest es keep :
  NoDup (map name es) ->
  0 <= keep ->
  exists n es',
    prune_local_batches (Directory es) keep = (Ret n, Directory es')
    /\ forall k,
        In k (firstn (Z.to_nat keep) (sort_newest_first (candidates_of es))) ->
        In k es'
        /\ forall r,
            In r (to_remove (sort_newest_first (candidates_of es)) keep) ->
            st_mtime r <= st_mtime k.
Proof.
  intros Hnd Hk. rewrite prune_directory. eexists _, _.
  split; [reflexivity|]. intros k Hin.
  assert (Hsorted_nd : NoDup (sort_newest_first (candidates_of es))).
  { eapply Permutation_NoDup;
      [apply Permutation_sym, sort_newest_first_perm|].
    unfold candidates_of. apply NoDup_filter. now apply nodup_entries. }
  assert (Hkes : In k es)
    by (apply sorted_candidates_incl; now apply in_firstn in Hin).
  split.
  - apply filter_In. split; [exact Hkes|].
    destruct (named_in _ k) eqn:E; [|reflexivity].
    apply (named_in_spec es _ k Hnd (deletable_removed_incl es keep) Hkes)
      in E.
    apply filter_In in E. destruct E as [E _].
    unfold to_remove in E. destruct (keep >=? 0); [|contradiction].
    exfalso. eapply firstn_skipn_disjoint; eassumption.
  - intros r Hr. unfold to_remove in Hr.
    destruct (keep >=? 0); [|contradiction].
    eapply sorted_split_ordered;
      [apply sort_newest_first_strongly | exact Hin | exact Hr].
Qed.

Lemma prune_keeps_the_newest_witness :
  exists n es',
    prune_local_batches (Directory five_batches) 3 = (Ret n, Directory es')
    /\ forall k,
        In k (firstn (Z.to_nat 3)
                (sort_newest_first (candidates_of five_batches))) ->
        In k es'
        /\ forall r,
            In r (to_remove (sort_newest_first (candidates_of five_batches))
                    3) ->
            st_mtime r <= st_mtime k.
Proof.
  apply (prune_keeps_the_newest five_batches 3); [|lia].
  repeat (constructor; [simpl; intuition discriminate|]). constructor.
Defined.

Lemma filter_swap {A : Type} (f g : A -> bool) l :
  filter f (filter g l) = filter g (filter f l).
Proof.
  induction l as [|a l IH]; simpl; [reflexivity|].
  destruct (f a) eqn:Ef, (g a) eqn:Eg; simpl;
    rewrite ?Ef, ?Eg, IH; reflexivity.
Qed.

Lemma filter_length_perm {A : Type} (f : A -> bool) l l' :
  Permutation l l' ->
  List.length (filter f l) = List.length (filter f l').
Proof.
  induction 1 as [|x l l' _ IH|x y l|l l' l'' _ IH1 _ IH2]; simpl.
  - reflexivity.
  - destruct (f x); simpl; now rewrite IH.
  - destruct (f x), (f y); reflexivity.
  - now rewrite IH1.
Qed.

Lemma filter_named_self paths :
  filter (fun e => negb (named_in paths e)) paths = [].
Proof.
  assert (H : forall l, incl l paths ->
                filter (fun e => negb (named_in paths e)) l = []).
  { induction l as [|a l IH]; intros Hl; simpl; [reflexivity|].
    assert (Ha : named_in paths a = true).
    { unfold named_in. apply existsb_exists. exists a.
      split; [apply Hl; now left | apply eqb_refl]. }
    rewrite Ha. simpl. apply IH. intros x Hx. apply Hl. now right. }
  apply H. intros x Hx. exact Hx.
Qed.

(** X4.  Pruning is idempotent when deletions go through: a second run
    with the same [keep >= 0] over what the first run left removes
    nothing and returns 0. *)
Theorem prune_again_removes_nothing es keep :
  0 <= keep ->
  Forall (fun p => rm_fails p = false) (candidates_of es) ->
  exists n es',
    prune_local_batches (Directory es) keep = (Ret n, Directory es')
    /\ prune_local_batches (Directory es') keep = (Ret 0%nat, Directory es').
Proof.
  intros Hk Hdel. rewrite prune_directory. eexists _, _.
  split; [reflexivity|].
  apply prune_result_count; [exact Hk|].
  set (sorted := sort_newest_first (candidates_of es)).
  assert (Hall : Forall (fun p => rm_fails p = false) (to_remove sorted keep)).
  { rewrite Forall_forall in *. intros p Hp. apply Hdel.
    apply to_remove_incl in Hp.
    eapply Permutation_in; [apply sort_newest_first_perm | exact Hp]. }
  rewrite (filter_deletable_all _ Hall).
  unfold candidates_of at 1. rewrite filter_swap.
  fold (candidates_of es).
  assert (Hlen :
    List.length (filter (fun e => negb (named_in (to_remove sorted keep) e))
                   (candidates_of es))
    = List.length (filter (fun e => negb (named_in (to_remove sorted keep) e))
                     sorted)).
  { apply filter_length_perm, Permutation_sym, sort_newest_first_perm. }
  rewrite Hlen. unfold to_remove. destruct (keep >=? 0) eqn:E; [|lia].
  rewrite <- (firstn_skipn (Z.to_nat keep) sorted) at 1.
  rewrite filter_app, filter_named_self, app_nil_r.
  pose proof (filter_length_le
                (fun e => negb (named_in (skipn (Z.to_nat keep) sorted) e))
                (firstn (Z.to_nat keep) sorted)) as Hle.
  pose proof (firstn_le_length (Z.to_nat keep) sorted). lia.
Qed.

Lemma prune_again_removes_nothing_witness :
  exists n es',
    prune_local_batches (Directory five_batches) 2 = (Ret n, Directory es')
    /\ prune_local_batches (Directory es') 2 = (Ret 0%nat, Directory es').
Proof.
  apply (prune_again_removes_nothing five_batches 2); [lia|].
  repeat constructor.
Defined.

End RetentionMore.

(* ===================================================================== *)
(** ** More about the manager *)
(* ===================================================================== *)

Module RemoteMore.
Import Remote Operations RemoteFacts.

Local Open Scope py_scope.

Section WithEnvironment.

Variable cfg : Config.
Variable env : Env.

Lemma execute_ssh_command_cases command timeout w :
  exists r w',
    execute_ssh_command cfg env command timeout w = (Ret r, w')
    /\ (trace w'
        = EvSshClose :: EvExec command :: EvSshConnect timeout :: trace w
        \/ (r = (false, [], cr_stderr r)
            /\ In (trace w')
                  [ trace w;
                    EvSshConnect timeout :: trace w;
                    EvExec command :: EvSshConnect timeout :: trace w ])).
Proof.
  unfold execute_ssh_command.
  destruct (no_connection_details cfg).
  { eexists _, _. split; [reflexivity|]. right. split; [reflexivity|].
    now left. }
  run_session. repeat (case_answer; run_session);
    (eexists _, _; split; [reflexivity|]);
    first [ left; reflexivity
          | right; split; [reflexivity | simpl; tauto] ].
Qed.

(** X5.  [execute_ssh_command] ends in one of two ways: the session ran
    to its end and was closed, or the answer is [(False, "", message)]
    (whatever the process had already written is dropped) and the
    session, if it was opened, was not closed. *)
Theorem execute_ssh_command_outcome command timeout w :
  exists r w',
    execute_ssh_command cfg env command timeout w = (Ret r, w')
    /\ (trace w'
        = EvSshClose :: EvExec command :: EvSshConnect timeout :: trace w
        \/ (r = (false, [], cr_stderr r)
            /\ In (trace w')
                  [ trace w;
                    EvSshConnect timeout :: trace w;
                    EvExec command :: EvSshConnect timeout :: trace w ])).
Proof. exact (execute_ssh_command_cases command timeout w). Qed.

(** A successful answer comes from a session that was closed. *)
Lemma execute_success_closed command timeout w :
  cr_success (match fst (execute_ssh_command cfg env command timeout w) with
              | Ret r => r
              | _ => (false, [], [])
              end) = true ->
  trace (snd (execute_ssh_command cfg env command timeout w))
  = EvSshClose :: EvExec command :: EvSshConnect timeout :: trace w.
Proof.
  destruct (execute_ssh_command_cases command timeout w)
    as (r & w' & Heq & Hcases).
  rewrite Heq. simpl. intros Hok.
  destruct Hcases as [Hclosed | [Hr _]]; [exact Hclosed|].
  rewrite Hr in Hok. discriminate.
Qed.

Lemma test_ssh_connection_true w w' :
  test_ssh_connection cfg env w = (Ret true, w') ->
  probe_succeeds cfg env (trace w) = true /\ w' = after env EvProbe 0 w.
Proof.
  rewrite test_ssh_connection_eq. unfold probe_succeeds.
  destruct (no_connection_details cfg); [discriminate|].
  destruct (ssh_connect env (EvProbe :: trace w)); [discriminate|].
  intros H. inversion H. split; reflexivity.
Qed.

Lemma test_ssh_connection_false w w' :
  test_ssh_connection cfg env w = (Ret false, w') ->
  probe_succeeds cfg env (trace w) = false
  /\ current_pod w' = current_pod w /\ now w <= now w'.
Proof.
  rewrite test_ssh_connection_eq. unfold probe_succeeds.
  destruct (no_connection_details cfg).
  - intros H. inversion H. subst. repeat split. lia.
  - destruct (ssh_connect env (EvProbe :: trace w)); [|discriminate].
    intros H. inversion H. subst. repeat split. simpl. lia.
Qed.

Lemma get_pod_info_keeps_pod w :
  current_pod (snd (get_pod_info cfg env w)) = current_pod w
  /\ now w <= now (snd (get_pod_info cfg env w)).
Proof.
  unfold get_pod_info, try_except.
  destruct (truthy_str (api_key cfg)); simpl; [|split; [reflexivity | lia]].
  unfold graphql, bind. rewrite request_eq.
  destruct (http_post env (EvHttpPost Describe :: trace w))
    as [e | code body]; simpl; [split; [reflexivity | lia]|].
  destruct (code =? 200)%Z; [|simpl; split; [reflexivity | lia]].
  destruct body; simpl; (split; [reflexivity | lia]).
Qed.

(** How the polling loop ends: with the pod recorded after a probe that
    went through, or with the time budget used up and the record of the
    pod untouched. *)
Lemma wait_loop_outcome fuel : forall start_time timeout w,
  start_time <= now w ->
  timeout < now w - start_time + 10 * fuel ->
  exists b w',
    wait_loop cfg env fuel start_time timeout w = (Ret b, w')
    /\ if b then ready_at cfg env w'
       else current_pod w' = current_pod w
            /\ timeout <= now w' - start_time.
Proof.
  induction fuel as [|fuel IH]; intros start_time timeout w Hstart Hfuel.
  - simpl. unfold bind, clock.
    destruct (now w - start_time <? timeout) eqn:E.
    + apply Nat.ltb_lt in E. lia.
    + apply Nat.ltb_ge in E. exists false, w.
      split; [reflexivity|]. split; [reflexivity | exact E].
  - simpl. unfold bind at 1. unfold clock.
    destruct (now w - start_time <? timeout) eqn:E.
    2:{ apply Nat.ltb_ge in E. exists false, w.
        split; [reflexivity|]. split; [reflexivity | exact E]. }
    assert (Hround : forall w1,
              current_pod w1 = current_pod w -> now w <= now w1 ->
              exists b w',
                (sleep env 10 ;; wait_loop cfg env fuel start_time timeout) w1
                = (Ret b, w')
                /\ if b then ready_at cfg env w'
                   else current_pod w' = current_pod w
                        /\ timeout <= now w' - start_time).
    { intros w1 Hpod Hnow. unfold bind. rewrite sleep_eq.
      pose proof (after_now env (EvSleep 10) 10 w1) as Hlater.
      destruct (IH start_time timeout (after env (EvSleep 10) 10 w1))
        as (b & w' & Heq & Hb); [lia | lia |].
      exists b, w'. split; [exact Heq|].
      destruct b; [exact Hb|]. destruct Hb as [Hp Ht].
      split; [|exact Ht]. rewrite Hp. exact Hpod. }
    destruct (get_pod_info_spec cfg env w) as (o & w1 & Hg & _).
    pose proof (get_pod_info_keeps_pod w) as [Hpod1 Hnow1].
    rewrite Hg in Hpod1, Hnow1. simpl in Hpod1, Hnow1.
    rewrite (bind_ret Hg).
    destruct o as [info|]; [|now apply Hround].
    destruct (runtime info); [|now apply Hround].
    destruct (truthy_str (ssh_host cfg) && truthy_int (ssh_port cfg)).
    + destruct (test_ssh_connection_spec cfg env w1) as (b & w2 & Hr & _).
      rewrite (bind_ret Hr). destruct b.
      * apply test_ssh_connection_true in Hr. destruct Hr as [Hp ->].
        eexists true, _. split; [reflexivity|]. split; [reflexivity|].
        exists (trace w1). split; [reflexivity | exact Hp].
      * apply test_ssh_connection_false in Hr.
        destruct Hr as (_ & Hpod2 & Hnow2).
        apply Hround; [congruence | lia].
    + unfold bind at 1, ret at 1. now apply Hround.
Qed.

Lemma wait_for_pod_ready_cases timeout w :
  exists b w',
    wait_for_pod_ready cfg env timeout w = (Ret b, w')
    /\ if b then ready_at cfg env w'
       else current_pod w' = current_pod w /\ now w + timeout <= now w'.
Proof.
  unfold wait_for_pod_ready, bind at 1, clock.
  unfold bind at 1, try_except, bind at 1.
  destruct (test_ssh_connection_spec cfg env w) as (b & w1 & Hr & _).
  rewrite Hr. destruct b.
  - apply test_ssh_connection_true in Hr. destruct Hr as [Hp ->].
    eexists true, _. split; [reflexivity|]. split; [reflexivity|].
    exists (trace w). split; [reflexivity | exact Hp].
  - apply test_ssh_connection_false in Hr. destruct Hr as (_ & Hpod & Hnow).
    simpl.
    destruct (wait_loop_outcome (S timeout) (now w) timeout w1)
      as (b & w' & Heq & Hb); [lia | lia |].
    destruct (wait_loop_terminates cfg env (S timeout) (now w) timeout w1)
      as (b0 & w0 & Heq0 & [Hlater _]); [lia | lia |].
    rewrite Heq in Heq0. inversion Heq0. subst b0 w0.
    exists b, w'. split; [exact Heq|].
    destruct b; [exact Hb|]. destruct Hb as [Hp Ht].
    split; [congruence | lia].
Qed.

(** X6.  [wait_for_pod_ready] always returns.  It returns [True] only
    right after a probe that went through, with the pod recorded as
    running; it returns [False] only once the whole time budget has
    passed, leaving the record of the pod as it was. *)
Theorem wait_for_pod_ready_outcome timeout w :
  exists b w',
    wait_for_pod_ready cfg env timeout w = (Ret b, w')
    /\ if b then ready_at cfg env w'
       else current_pod w' = current_pod w /\ now w + timeout <= now w'.
Proof. exact (wait_for_pod_ready_cases timeout w). Qed.

Lemma start_stop_cases w :
  let answer op :=
    match http_post env (EvHttpPost op :: trace w) with
    | HttpResponse code (JsonData (Some _)) => (code =? 200)%Z
    | _ => false
    end in
  (truthy_str (api_key cfg) = false ->
   start_pod cfg env w = (Ret false, w)
   /\ stop_pod cfg env w = (Ret false, w))
  /\ (truthy_str (api_key cfg) = true ->
      start_pod cfg env w
      = (Ret (answer Start), after env (EvHttpPost Start) 0 w)
      /\ stop_pod cfg env w
         = (Ret (answer Stop), after env (EvHttpPost Stop) 0 w)).
Proof.
  unfold start_pod, stop_pod, mutate, try_except. split; intros Hkey;
    rewrite Hkey; simpl; [split; reflexivity|].
  unfold graphql, bind. rewrite !request_eq.
  split.
  - destruct (http_post env (EvHttpPost Start :: trace w))
      as [e | code [e | [field|]]]; try reflexivity;
      destruct (code =? 200)%Z; reflexivity.
  - destruct (http_post env (EvHttpPost Stop :: trace w))
      as [e | code [e | [field|]]]; try reflexivity;
      destruct (code =? 200)%Z; reflexivity.
Qed.

(** X7.  [start_pod] and [stop_pod] never raise.  Without an API key
    they answer [False] and ask nothing; with one they make one request
    and answer [True] exactly when the reply is a 200 that holds the
    object asked for (a failed request, another status, a body that is
    not JSON or an empty selection all give [False]). *)
Theorem start_stop_outcome w :
  let answer op :=
    match http_post env (EvHttpPost op :: trace w) with
    | HttpResponse code (JsonData (Some _)) => (code =? 200)%Z
    | _ => false
    end in
  (truthy_str (api_key cfg) = false ->
   start_pod cfg env w = (Ret false, w)
   /\ stop_pod cfg env w = (Ret false, w))
  /\ (truthy_str (api_key cfg) = true ->
      start_pod cfg env w
      = (Ret (answer Start), after env (EvHttpPost Start) 0 w)
      /\ stop_pod cfg env w
         = (Ret (answer Stop), after env (EvHttpPost Stop) 0 w)).
Proof. exact (start_stop_cases w). Qed.

Lemma start_pod_spec w :
  exists b w',
    start_pod cfg env w = (Ret b, w')
    /\ now w <= now w'
    /\ ((b = false /\ w' = w /\ truthy_str (api_key cfg) = false)
        \/ (w' = after env (EvHttpPost Start) 0 w
            /\ truthy_str (api_key cfg) = true)).
Proof.
  destruct (start_stop_cases w) as [Hno Hyes].
  destruct (truthy_str (api_key cfg)) eqn:Hkey.
  - destruct (Hyes eq_refl) as [-> _]. eexists _, _.
    split; [reflexivity|]. split; [simpl; lia|]. right. now split.
  - destruct (Hno eq_refl) as [-> _]. eexists _, _.
    split; [reflexivity|]. split; [lia|]. left. repeat split.
Qed.

Lemma starts_in_app l h : starts_in (l ++ h) = starts_in l + starts_in h.
Proof.
  induction l as [|e l IH]; [reflexivity|].
  destruct e as [| | | |[| |]| | | |]; simpl; rewrite IH; reflexivity.
Qed.

Lemma polling_starts_nothing l :
  Forall (polling_event cfg) l -> starts_in l = 0.
Proof.
  induction 1 as [|e l He _ IH]; [reflexivity|].
  destruct He as [-> | [-> | [_ ->]]]; exact IH.
Qed.

Lemma continues_starts w w' :
  continues (polling_event cfg) w w' ->
  starts_in (trace w') = starts_in (trace w).
Proof.
  intros [_ (l & -> & Hl)].
  now rewrite starts_in_app, (polling_starts_nothing l Hl).
Qed.

Lemma ensure_pod_running_cases auto_start w :
  exists b w',
    ensure_pod_running cfg env auto_start w = (Ret b, w')
    /\ continues (fun e => polling_event cfg e \/ e = EvHttpPost Start) w w'
    /\ starts_in (trace w') <= S (starts_in (trace w))
    /\ (auto_start = false \/ probe_succeeds cfg env (trace w) = true
        \/ truthy_str (api_key cfg) = false ->
        starts_in (trace w') = starts_in (trace w))
    /\ (b = true ->
        probe_succeeds cfg env (trace w) = true \/ ready_at cfg env w').
Proof.
  assert (Hweak : forall a b, continues (polling_event cfg) a b ->
            continues (fun e => polling_event cfg e \/ e = EvHttpPost Start)
                      a b).
  { intros a b. apply continues_weaken. intros e He. now left. }
  destruct (probe_succeeds cfg env (trace w)) eqn:Hp.
  - rewrite (ensure_pod_running_reachable cfg env auto_start w Hp).
    destruct (wait_for_pod_ready_spec cfg env 30 (after env EvProbe 0 w))
      as (b & w' & Heq & Hc).
    rewrite Heq. simpl.
    assert (Hc' : continues (polling_event cfg) w w').
    { eapply continues_trans; [|exact Hc]. apply continues_after. now left. }
    exists true, w'. split; [reflexivity|]. split; [now apply Hweak|].
    rewrite (continues_starts w w' Hc').
    split; [lia|]. split; [reflexivity | now left].
  - unfold ensure_pod_running. unfold bind at 1.
    rewrite test_ssh_connection_eq.
    set (w0 := if no_connection_details cfg then w
               else after env EvProbe 0 w).
    assert (Hw0 : continues (polling_event cfg) w w0).
    { unfold w0. destruct (no_connection_details cfg).
      - apply continues_refl.
      - apply continues_after. now left. }
    assert (Htest :
      (if no_connection_details cfg then (Ret false, w)
       else (Ret match ssh_connect env (EvProbe :: trace w) with
                 | Some _ => false
                 | None => true
                 end, after env EvProbe 0 w))
      = (Ret false, w0)).
    { unfold w0, probe_succeeds in *.
      destruct (no_connection_details cfg); [reflexivity|].
      destruct (ssh_connect env (EvProbe :: trace w));
        [reflexivity | discriminate]. }
    rewrite Htest. cbv beta iota.
    destruct auto_start.
    2:{ exists false, w0. split; [reflexivity|]. split; [now apply Hweak|].
        rewrite (continues_starts w w0 Hw0).
        split; [lia|]. split; [reflexivity | discriminate]. }
    destruct (start_pod_spec w0) as (started & w1 & Hs & _ & Hcases).
    rewrite (bind_ret Hs).
    destruct Hcases as [(-> & -> & Hkey) | [-> Hkey]].
    + exists false, w0. split; [reflexivity|]. split; [now apply Hweak|].
      rewrite (continues_starts w w0 Hw0).
      split; [lia|]. split; [reflexivity | discriminate].
    + assert (H1 : continues
                     (fun e => polling_event cfg e \/ e = EvHttpPost Start)
                     w (after env (EvHttpPost Start) 0 w0)).
      { eapply continues_trans; [apply Hweak, Hw0|].
        apply continues_after. now right. }
      assert (Hcount : starts_in (trace (after env (EvHttpPost Start) 0 w0))
                       = S (starts_in (trace w))).
      { simpl. now rewrite (continues_starts w w0 Hw0). }
      destruct started.
      * destruct (wait_for_pod_ready_cases 300
                    (after env (EvHttpPost Start) 0 w0))
          as (b & w' & Heq & Hb).
        destruct (wait_for_pod_ready_spec cfg env 300
                    (after env (EvHttpPost Start) 0 w0))
          as (b0 & w0' & Heq0 & Hc).
        rewrite Heq in Heq0. inversion Heq0. subst b0 w0'.
        exists b, w'. split; [exact Heq|].
        split; [eapply continues_trans; [exact H1 | apply Hweak, Hc]|].
        rewrite (continues_starts _ w' Hc), Hcount.
        split; [lia|]. split.
        -- intros [Ha | [Ha | Ha]]; congruence.
        -- intros ->. right. exact Hb.
      * eexists false, _. split; [reflexivity|]. split; [exact H1|].
        rewrite Hcount. split; [lia|]. split.
        -- intros [Ha | [Ha | Ha]]; congruence.
        -- discriminate.
Qed.

(** X8.  [ensure_pod_running] always returns, whatever [auto_start] is.
    All it asks of the outside is probes, sleeps and descriptions of
    the pod, and at most one start of the pod; a start is asked only
    with [auto_start] set, an API key configured and the probe at the
    entry failed.  It never stops the pod and never runs a command.  It
    returns [True] only if the probe at its entry went through or the
    pod was recorded as running after a later probe that did. *)
Theorem ensure_pod_running_outcome auto_start w :
  exists b w',
    ensure_pod_running cfg env auto_start w = (Ret b, w')
    /\ continues (fun e => polling_event cfg e \/ e = EvHttpPost Start) w w'
    /\ starts_in (trace w') <= S (starts_in (trace w))
    /\ (auto_start = false \/ probe_succeeds cfg env (trace w) = true
        \/ truthy_str (api_key cfg) = false ->
        starts_in (trace w') = starts_in (trace w))
    /\ (b = true ->
        probe_succeeds cfg env (trace w) = true \/ ready_at cfg env w').
Proof. exact (ensure_pod_running_cases auto_start w). Qed.

(** X9.  Without an API key [auto_start] changes nothing:
    [ensure_pod_running(auto_start=True)] does and returns what
    [ensure_pod_running()] does. *)
Theorem ensure_pod_running_without_key w :
  truthy_str (api_key cfg) = false ->
  ensure_pod_running cfg env true w = ensure_pod_running cfg env false w.
Proof.
  intros Hkey. unfold ensure_pod_running.
  destruct (test_ssh_connection_spec cfg env w) as (b & w1 & Hr & _).
  rewrite !(bind_ret Hr). destruct b; [reflexivity|].
  destruct (start_stop_cases w1) as [Hno _].
  destruct (Hno Hkey) as [Hs _].
  rewrite (bind_ret Hs). reflexivity.
Qed.

(** X10.  Without an SSH host or port [ensure_pod_running] cannot
    succeed, with or without [auto_start]: it returns [False]. *)
Theorem ensure_pod_running_without_details auto_start w :
  no_connection_details cfg = true ->
  fst (ensure_pod_running cfg env auto_start w) = Ret false.
Proof.
  intros Hd.
  destruct (ensure_pod_running_cases auto_start w)
    as (b & w' & Heq & _ & _ & _ & Hb).
  rewrite Heq. simpl. destruct b; [|reflexivity].
  exfalso. unfold ready_at, probe_succeeds in Hb. rewrite Hd in Hb.
  destruct (Hb eq_refl) as [H | (_ & h & _ & H)]; discriminate.
Qed.






Lemma grows_refl w : grows w w.
Proof. now exists []. Qed.

Lemma grows_trans w1 w2 w3 : grows w1 w2 -> grows w2 w3 -> grows w1 w3.
Proof.
  intros (l1 & H1) (l2 & H2). exists (l2 ++ l1).
  rewrite H2, H1. apply app_assoc.
Qed.


Lemma grows_after e pause w : grows w (after env e pause w).
Proof. now exists [e]. Qed.

Lemma continues_grows P w w' : continues P w w' -> grows w w'.
Proof. intros [_ (l & H & _)]. now exists l. Qed.







End WithEnvironment.


Lemma start_stop_outcome_witness :
  start_pod (sample_cfg None) unreachable fresh = (Ret false, fresh)
  /\ stop_pod (sample_cfg None) unreachable fresh = (Ret false, fresh).
Proof.
  apply (proj1 (start_stop_outcome (sample_cfg None) unreachable fresh)).
  reflexivity.
Defined.

Lemma ensure_pod_running_outcome_witness :
  exists b w',
    ensure_pod_running (sample_cfg None) unreachable true fresh = (Ret b, w')
    /\ starts_in (trace w') = starts_in (trace fresh).
Proof.
  destruct (ensure_pod_running_outcome (sample_cfg None) unreachable true
              fresh)
    as (b & w' & Heq & _ & _ & Hstarts & _).
  exists b, w'. split; [exact Heq|].
  apply Hstarts. right. right. reflexivity.
Defined.


Lemma ensure_pod_running_without_key_witness :
  ensure_pod_running (sample_cfg None) unreachable true fresh
  = ensure_pod_running (sample_cfg None) unreachable false fresh.
Proof.
  apply (ensure_pod_running_without_key (sample_cfg None) unreachable fresh).
  reflexivity.
Defined.

Lemma ensure_pod_running_without_details_witness :
  no_connection_details detached_cfg = true
  /\ fst (ensure_pod_running detached_cfg
            (worker always silent silent (Fine 0%Z) None 0) true fresh)
     = Ret false.
Proof.
  split; [reflexivity|].
  apply (ensure_pod_running_without_details detached_cfg
           (worker always silent silent (Fine 0%Z) None 0) true fresh).
  reflexivity.
Defined.

End RemoteMore.

(* ===================================================================== *)
(** ** Facts about the remaining operations *)
(* ===================================================================== *)

Module OperationsFacts.
Import Remote Operations PyStrFacts RemoteFacts RemoteMore.

Local Open Scope py_scope.

Lemma startswith_app p s : startswith p (p ++ s) = true.
Proof.
  induction p as [|a p IH]; [reflexivity|]. simpl.
  now rewrite N.eqb_refl, IH.
Qed.

Lemma contains_cons sub a t :
  contains sub (a :: t) = startswith sub (a :: t) || contains sub t.
Proof. reflexivity. Qed.

Lemma contains_prefix sub rest : contains sub (sub ++ rest) = true.
Proof.
  destruct (sub ++ rest) as [|a t] eqn:E.
  - apply app_eq_nil in E. destruct E as [-> _]. reflexivity.
  - rewrite contains_cons, <- E, startswith_app. reflexivity.
Qed.

Lemma contains_app sub before rest :
  contains sub (before ++ sub ++ rest) = true.
Proof.
  induction before as [|a before IH].
  - apply (contains_prefix sub rest).
  - change ((a :: before) ++ sub ++ rest)
      with (a :: (before ++ sub ++ rest)).
    rewrite contains_cons, IH. apply orb_true_r.
Qed.

Lemma endswith_app stem suffix : endswith suffix (stem ++ suffix) = true.
Proof. unfold endswith. rewrite rev_app_distr. apply startswith_app. Qed.

(** X14.  The filter of [upload_project_files] works on the text of the
    member name: a member is dropped as soon as its name holds one of
    the five directory tokens anywhere (so also below a directory whose
    name merely ends in [.git]) or ends in [.pyc] or [.pyo]; a member
    that is kept is kept under its own name. *)
Theorem exclude_by_substring :
  (forall token before rest,
      In token excluded -> _exclude (before ++ token ++ rest) = None)
  /\ (forall stem,
         _exclude (stem ++ py ".pyc") = None
         /\ _exclude (stem ++ py ".pyo") = None)
  /\ (forall name kept, _exclude name = Some kept -> kept = name).
Proof.
  split; [|split].
  - intros token before rest Hin. unfold _exclude.
    replace (existsb (fun t => contains t (before ++ token ++ rest)) excluded)
      with true; [reflexivity|].
    symmetry. apply existsb_exists. exists token.
    split; [exact Hin | apply contains_app].
  - intros stem. unfold _exclude. split.
    + destruct (existsb _ excluded); [reflexivity|].
      now rewrite endswith_app.
    + destruct (existsb _ excluded); [reflexivity|].
      rewrite (endswith_app stem (py ".pyo")), orb_true_r. reflexivity.
  - intros name kept. unfold _exclude.
    destruct (existsb _ excluded); [discriminate|].
    destruct (endswith _ name || endswith _ name); [discriminate|].
    intros H. now inversion H.
Qed.

Lemma exclude_by_substring_witness :
  _exclude (py "project/docs.git/" ++ py "readme.md") = None
  /\ _exclude (py "project/app/" ++ py "__pycache__/" ++ py "main.cpython-311.pyc")
     = None.
Proof.
  destruct exclude_by_substring as [Htoken _]. split.
  - apply (Htoken (py ".git/") (py "project/docs") (py "readme.md")).
    simpl. tauto.
  - apply (Htoken (py "__pycache__/") (py "project/app/")
             (py "main.cpython-311.pyc")).
    simpl. tauto.
Defined.

Lemma startswith_split p : forall s,
  startswith p s = true -> exists rest, s = p ++ rest.
Proof.
  induction p as [|a p IH]; intros s H.
  - now exists s.
  - destruct s as [|b s]; [discriminate|]. simpl in H.
    apply andb_prop in H. destruct H as [Hab Hs].
    apply N.eqb_eq in Hab. subst b.
    destruct (IH s Hs) as (rest & ->). now exists rest.
Qed.

Lemma contains_split sub : forall s,
  contains sub s = true -> exists before rest, s = before ++ sub ++ rest.
Proof.
  induction s as [|a s IH]; intros H.
  - simpl in H. rewrite orb_false_r in H.
    apply startswith_split in H. destruct H as (rest & H).
    now exists [], rest.
  - rewrite contains_cons in H. apply orb_prop in H. destruct H as [H | H].
    + apply startswith_split in H. destruct H as (rest & H).
      now exists [], rest.
    + destruct (IH H) as (before & rest & ->).
      now exists (a :: before), rest.
Qed.

(** A text that holds [pre ++ sub] holds [sub]. *)
Lemma contains_suffix pre sub s :
  contains (pre ++ sub) s = true -> contains sub s = true.
Proof.
  intros H. apply contains_split in H. destruct H as (before & rest & ->).
  rewrite <- (app_assoc pre sub rest), (app_assoc before pre).
  apply contains_app.
Qed.

Section WithEnvironment.

Variable cfg : Config.
Variable env : Env.


Lemma no_running_pod_eq w :
  no_running_pod w = (Ret (negb (pod_on_record w)), w).
Proof.
  unfold no_running_pod, pod_on_record, bind, get_current_pod, ret.
  destruct (current_pod w); reflexivity.
Qed.


(** X16.  [cleanup] asks nothing of the outside: it drops the record
    of a running pod and leaves everything else as it was (a pod on
    record as not running stays on record).  After it no running pod
    is on record, so [setup_workspace] and [install_dependencies]
    answer [False] without dispatching anything, and a second
    [cleanup] changes nothing. *)
Theorem cleanup_forgets_pod w :
  exists w',
    cleanup w = (Ret tt, w')
    /\ trace w' = trace w /\ now w' = now w
    /\ (if pod_on_record w then current_pod w' = None else w' = w)
    /\ pod_on_record w' = false
    /\ setup_workspace cfg env w' = (Ret false, w')
    /\ install_dependencies cfg env w' = (Ret false, w')
    /\ cleanup w' = (Ret tt, w').
Proof.
  assert (Hstep : exists w',
             cleanup w = (Ret tt, w') /\ trace w' = trace w
             /\ now w' = now w
             /\ (if pod_on_record w then current_pod w' = None else w' = w)
             /\ pod_on_record w' = false).
  { unfold cleanup. rewrite (bind_ret (no_running_pod_eq w)).
    destruct (pod_on_record w) eqn:E; cbv beta iota delta [negb].
    - eexists. split; [reflexivity|]. repeat split.
    - exists w. repeat split. exact E. }
  destruct Hstep as (w' & Hc & Ht & Hn & Hw & Hp).
  exists w'. split; [exact Hc|]. split; [exact Ht|]. split; [exact Hn|].
  split; [exact Hw|]. split; [exact Hp|].
  unfold setup_workspace, install_dependencies, cleanup.
  rewrite !(bind_ret (no_running_pod_eq w')), Hp.
  repeat split.
Qed.

(** The loop of [monitor_process] can only end with [False]. *)
Lemma monitor_loop_false fuel : forall process_name start_time timeout w,
  start_time <= now w ->
  (timeout < Z.of_nat (now w - start_time) + 30 * Z.of_nat fuel)%Z ->
  exists w',
    monitor_loop cfg env fuel process_name start_time timeout w
    = (Ret false, w')
    /\ grows w w'.
Proof.
  induction fuel as [|fuel IH];
    intros process_name start_time timeout w Hstart Hfuel.
  - simpl. unfold bind, clock.
    destruct (Z.of_nat (now w - start_time) <? timeout)%Z eqn:E.
    + apply Z.ltb_lt in E. lia.
    + exists w. split; [reflexivity | apply grows_refl].
  - simpl. unfold bind at 1. unfold clock.
    destruct (Z.of_nat (now w - start_time) <? timeout)%Z eqn:E;
      [|exists w; split; [reflexivity | apply grows_refl]].
    destruct (execute_ssh_command_spec cfg env (pgrep_cmd process_name) 300 w)
      as (r & w1 & Hx & Hc).
    rewrite (bind_ret Hx).
    pose proof (continues_grows _ _ _ Hc) as Hg1.
    destruct Hc as [Hnow _].
    destruct (cr_success r && negb (is_empty (strip (cr_stdout r))));
      [|exists w1; split; [reflexivity | exact Hg1]].
    unfold bind. rewrite sleep_eq.
    pose proof (after_now env (EvSleep 30) 30 w1) as Hlater.
    destruct (IH process_name start_time timeout
                (after env (EvSleep 30) 30 w1))
      as (w' & Heq & Hg); [lia | lia |].
    exists w'. split; [exact Heq|].
    eapply grows_trans; [exact Hg1|].
    eapply grows_trans; [apply grows_after | exact Hg].
Qed.

(** X17.  [monitor_process] never answers [True]: it returns [False]
    when the worker cannot be reached, when the process is not (or no
    longer) running and when the time is up; so [cmd_monitor] always
    exits with status 1. *)
Theorem monitor_process_never_true process_name timeout auto_start w :
  fst (monitor_process cfg env process_name timeout w) = Ret false
  /\ fst (cmd_monitor cfg env auto_start process_name timeout w) = Ret 1%Z.
Proof.
  assert (Hmon : forall w0,
            exists w', monitor_process cfg env process_name timeout w0
                       = (Ret false, w')).
  { intros w0. unfold monitor_process.
    destruct (ensure_pod_running_spec cfg env w0)
      as (ready & w1 & Heq & _ & _).
    rewrite (bind_ret Heq). destruct ready; cbv beta iota delta [negb].
    - unfold bind, clock.
      destruct (monitor_loop_false (S (Z.to_nat timeout)) process_name
                  (now w1) timeout w1) as (w' & Hl & _); [lia | lia |].
      exists w'. exact Hl.
    - exists w1. reflexivity. }
  split.
  - destruct (Hmon w) as (w' & ->). reflexivity.
  - unfold cmd_monitor.
    destruct (ensure_pod_running_cases cfg env auto_start w)
      as (ready & w1 & Heq & _).
    rewrite (bind_ret Heq). destruct ready; cbv beta iota delta [negb].
    + destruct (Hmon w1) as (w' & Hm). rewrite (bind_ret Hm). reflexivity.
    + reflexivity.
Qed.

(** X18.  When the worker cannot be reached every helper of [utils.py]
    gives up after the one failed probe (or at once, without
    connection details), having dispatched no command, copied no file
    and touched nothing on the local side. *)
Theorem helpers_need_a_reachable_worker w :
  probe_succeeds cfg env (trace w) = false ->
  let w0 := if no_connection_details cfg then w else after env EvProbe 0 w in
  (forall local_path,
      upload_project_files cfg env local_path w = (Ret false, w0))
  /\ (forall path backup_name,
         create_backup cfg env path backup_name w = (Ret false, w0))
  /\ (forall backup_path target_path,
         restore_backup cfg env backup_path target_path w = (Ret false, w0))
  /\ (forall process_name timeout,
         monitor_process cfg env process_name timeout w = (Ret false, w0))
  /\ (forall log_path lines,
         get_logs cfg env log_path lines w
         = (Ret (py "No running pod available"), w0))
  /\ get_system_info cfg env w
     = (Ret [(py "error", py "No running pod available")], w0)
  /\ (forall remote_dir,
         clear_remote_directory cfg env remote_dir w = (Ret false, w0))
  /\ (forall remote_dir local_base_dir archive_name_prefix,
         download_and_extract_outputs cfg env remote_dir local_base_dir
           archive_name_prefix w = (Ret None, w0)).
Proof.
  intros Hp w0.
  pose proof (ensure_pod_running_unreachable cfg env w Hp) as Heq.
  fold w0 in Heq.
  unfold upload_project_files, create_backup, restore_backup,
    monitor_process, get_logs, get_system_info, clear_remote_directory,
    download_and_extract_outputs.
  repeat split; intros; rewrite (bind_ret Heq); reflexivity.
Qed.

Lemma bind_ret_l {A B} (a : A) (k : A -> M B) : bind (ret a) k = k a.
Proof. reflexivity. Qed.

Lemma bind_raise_l {A B} (e : Exn) (k : A -> M B) :
  bind (raise e) k = raise e.
Proof. reflexivity. Qed.

Lemma item_cases parts i :
  (exists part, nth_error parts i = Some part /\ item parts i = ret part)
  \/ (nth_error parts i = None /\ item parts i = raise index_error).
Proof.
  unfold item. destruct (nth_error parts i) as [part|].
  - left. now exists part.
  - right. split; reflexivity.
Qed.

Lemma system_event_polling w w' :
  continues (polling_event cfg) w w' -> continues (system_event cfg) w w'.
Proof. apply continues_weaken. intros e He. now left. Qed.

Lemma system_event_session command w w' :
  In command system_queries ->
  continues (session_event command 300) w w' ->
  continues (system_event cfg) w w'.
Proof.
  intros Hin. apply continues_weaken. intros e He. right. now exists command.
Qed.

(** One query of [get_system_info]. *)
Lemma system_query command w0 w :
  In command system_queries ->
  continues (system_event cfg) w0 w ->
  exists r w',
    execute_ssh_command cfg env command 300 w = (Ret r, w')
    /\ continues (system_event cfg) w0 w'.
Proof.
  intros Hin Hc.
  destruct (execute_ssh_command_spec cfg env command 300 w)
    as (r & w' & Heq & Hs).
  exists r, w'. split; [exact Heq|].
  eapply continues_trans; [exact Hc|].
  eapply system_event_session; eassumption.
Qed.

Ltac next_item :=
  match goal with
  | |- context [item ?parts ?i] =>
      destruct (item_cases parts i) as [(? & _ & ->) | (_ & ->)];
      rewrite ?bind_ret_l, ?bind_raise_l; cbv beta
  end.

Ltac raised :=
  eexists _, _; split; [reflexivity|]; split; [eassumption | reflexivity].

Ltac next_query :=
  match goal with
  | Hc : continues (system_event cfg) ?w0 ?w
    |- context [bind (execute_ssh_command cfg env ?command 300) _ ?w] =>
      let r := fresh "r" in
      let w' := fresh "w" in
      let Hx := fresh "Hx" in
      let Hc' := fresh "Hc" in
      destruct (system_query command w0 w) as (r & w' & Hx & Hc');
      [simpl; tauto | exact Hc |];
      rewrite (bind_ret Hx); clear Hx Hc
  end.

(** X19.  [get_system_info] always comes to an end.  All it asks of
    the outside, besides making sure of the worker, is sessions for
    its four queries.  It returns a dict with the one key [error], or
    with [gpu], [memory], [disk] and [python] in this order, or with
    these without [disk]; or it raises [IndexError], which nothing
    catches. *)
Theorem get_system_info_outcome w :
  exists o w',
    get_system_info cfg env w = (o, w')
    /\ continues (system_event cfg) w w'
    /\ match o with
       | Ret info =>
           In (map fst info)
              [ [py "error"];
                [py "gpu"; py "memory"; py "disk"; py "python"];
                [py "gpu"; py "memory"; py "python"] ]
       | Raise e => e = index_error
       | OutOfFuel => False
       end.
Proof.
  unfold get_system_info.
  destruct (ensure_pod_running_spec cfg env w) as (ready & w1 & Heq & Hc & _).
  rewrite (bind_ret Heq). apply system_event_polling in Hc.
  destruct ready;
    [change (negb true) with false | change (negb false) with true];
    cbv beta iota zeta.
  2:{ eexists _, w1. split; [reflexivity|]. split; [exact Hc|].
      simpl. tauto. }
  next_query.
  destruct (cr_success r && negb (is_empty (strip (cr_stdout r))));
    [do 3 (next_item; [|raised])|]; rewrite ?bind_ret_l; cbv beta;
    (next_query;
     destruct (cr_success r0 && negb (is_empty (strip (cr_stdout r0))));
     [do 3 (next_item; [|raised])|]; rewrite ?bind_ret_l; cbv beta;
     (next_query;
      destruct (cr_success r1 && negb (is_empty (strip (cr_stdout r1))));
      [destruct (1 <? List.length (split [10%N] (strip (cr_stdout r1))));
       [do 4 (next_item; [|raised])|]|];
      rewrite ?bind_ret_l; cbv beta;
      (next_query;
       destruct (cr_success r2);
       (eexists _, _; split; [reflexivity|]; split; [eassumption|];
        simpl; tauto)))).
Qed.

(** X20.  When the worker is reachable and the GPU query succeeds
    with a line of fewer than three fields, [get_system_info] raises
    [IndexError] right after that query: the caller gets no dict, and
    the three other queries are not made. *)
Theorem get_system_info_short_gpu_line w w1 r w2 :
  ensure_pod_running cfg env false w = (Ret true, w1) ->
  execute_ssh_command cfg env (hd [] system_queries) 300 w1 = (Ret r, w2) ->
  cr_success r = true ->
  is_empty (strip (cr_stdout r)) = false ->
  List.length (split (py ", ") (strip (cr_stdout r))) < 3 ->
  get_system_info cfg env w = (Raise index_error, w2).
Proof.
  intros Hready Hx Hok Hout Hlen. unfold get_system_info.
  rewrite (bind_ret Hready). change (negb true) with false.
  cbv beta iota zeta.
  change (py "nvidia-smi --query-gpu=name,memory.total,memory.used --format=csv,noheader,nounits")
    with (hd [] system_queries).
  rewrite (bind_ret Hx), Hok, Hout.
  change (true && negb false) with true. cbv beta iota zeta.
  repeat match goal with
  | |- context [item ?parts ?i] =>
      destruct (item_cases parts i) as [(? & ? & ->) | (_ & ->)];
      rewrite ?bind_ret_l, ?bind_raise_l; cbv beta; [|reflexivity]
  end.
  exfalso.
  match goal with
  | H : nth_error _ 2 = Some _ |- _ =>
      assert (Hn : nth_error (split (py ", ") (strip (cr_stdout r))) 2 <> None)
        by (rewrite H; discriminate);
      apply nth_error_Some in Hn; lia
  end.
Qed.

Lemma try_except_ret {A} (body : M A) handler w a w' :
  body w = (Ret a, w') -> try_except body handler w = (Ret a, w').
Proof. intros H. unfold try_except. now rewrite H. Qed.

(** One check of [wait_for_webui]. *)
Lemma webui_check w :
  exists r w',
    execute_ssh_command cfg env webui_check_cmd 300 w = (Ret r, w')
    /\ continues (session_event webui_check_cmd 300) w w'
    /\ (cr_success r = true ->
        trace w'
        = EvSshClose :: EvExec webui_check_cmd :: EvSshConnect 300 :: trace w).
Proof.
  destruct (execute_ssh_command_spec cfg env webui_check_cmd 300 w)
    as (r & w' & Heq & Hc).
  exists r, w'. split; [exact Heq|]. split; [exact Hc|].
  intros Hok.
  pose proof (execute_success_closed cfg env webui_check_cmd 300 w) as Hcl.
  rewrite Heq in Hcl. exact (Hcl Hok).
Qed.

Lemma webui_loop_outcome fuel : forall start_time timeout w,
  start_time <= now w ->
  (timeout < Z.of_nat (now w - start_time) + 10 * Z.of_nat fuel)%Z ->
  exists b w',
    webui_loop cfg env fuel start_time timeout w = (Ret b, w')
    /\ continues
         (fun e => session_event webui_check_cmd 300 e \/ e = EvSleep 10)
         w w'
    /\ (if b
        then exists h,
               trace w'
               = EvSshClose :: EvExec webui_check_cmd :: EvSshConnect 300 :: h
        else (timeout <= Z.of_nat (now w' - start_time))%Z).
Proof.
  induction fuel as [|fuel IH]; intros start_time timeout w Hstart Hfuel.
  - simpl. unfold bind, clock.
    destruct (Z.of_nat (now w - start_time) <? timeout)%Z eqn:E.
    + apply Z.ltb_lt in E. lia.
    + apply Z.ltb_ge in E. exists false, w.
      split; [reflexivity|]. split; [apply continues_refl | exact E].
  - simpl. unfold bind at 1. unfold clock.
    destruct (Z.of_nat (now w - start_time) <? timeout)%Z eqn:E.
    2:{ apply Z.ltb_ge in E. exists false, w.
        split; [reflexivity|]. split; [apply continues_refl | exact E]. }
    destruct (webui_check w) as (r & w1 & Hx & Hc & Hclosed).
    match goal with
    | |- context [bind (try_except ?body ?handler) _ w] =>
        assert (Hfound : try_except body handler w
                         = (Ret (cr_success r
                                 && contains (py "ready") (cr_stdout r)), w1))
          by (apply try_except_ret; rewrite (bind_ret Hx); reflexivity)
    end.
    rewrite (bind_ret Hfound).
    assert (Hc1 : continues
                    (fun e => session_event webui_check_cmd 300 e
                              \/ e = EvSleep 10) w w1).
    { eapply continues_weaken; [|exact Hc]. intros e He. now left. }
    destruct (cr_success r && contains (py "ready") (cr_stdout r)) eqn:Ef.
    + exists true, w1. split; [reflexivity|]. split; [exact Hc1|].
      apply andb_prop in Ef. destruct Ef as [Hok _].
      eexists. exact (Hclosed Hok).
    + unfold bind. rewrite sleep_eq.
      pose proof (after_now env (EvSleep 10) 10 w1) as Hlater.
      destruct Hc as [Hnow _].
      destruct (IH start_time timeout (after env (EvSleep 10) 10 w1))
        as (b & w' & Heq & Hc2 & Hb); [lia | lia |].
      exists b, w'. split; [exact Heq|]. split; [|exact Hb].
      eapply continues_trans; [exact Hc1|].
      eapply continues_trans; [|exact Hc2].
      apply continues_after. now right.
Qed.

(** X21.  [wait_for_webui] always comes to an end, having run nothing
    but its check and slept ten seconds at a time.  It answers [True]
    only right after a check whose session was closed, and [False]
    only when [timeout] seconds have gone by; with a [timeout] that is
    not positive it answers [False] at once, asking nothing. *)
Theorem wait_for_webui_outcome timeout w :
  exists b w',
    wait_for_webui cfg env timeout w = (Ret b, w')
    /\ continues
         (fun e => session_event webui_check_cmd 300 e \/ e = EvSleep 10)
         w w'
    /\ (if b
        then (0 < timeout)%Z
             /\ exists h,
                  trace w'
                  = EvSshClose :: EvExec webui_check_cmd
                      :: EvSshConnect 300 :: h
        else (Z.of_nat (now w) + timeout <= Z.of_nat (now w'))%Z)
    /\ ((timeout <= 0)%Z -> b = false /\ w' = w).
Proof.
  unfold wait_for_webui, bind at 1, clock.
  destruct (timeout <=? 0)%Z eqn:E.
  - apply Z.leb_le in E. exists false, w. simpl.
    unfold bind, clock. rewrite Nat.sub_diag.
    replace (Z.of_nat 0 <? timeout)%Z with false
      by (symmetry; apply Z.ltb_ge; lia).
    split; [reflexivity|]. split; [apply continues_refl|].
    split; [lia|]. intros _. split; reflexivity.
  - apply Z.leb_gt in E.
    destruct (webui_loop_outcome (S (Z.to_nat timeout)) (now w) timeout w)
      as (b & w' & Heq & Hc & Hb); [lia | lia |].
    exists b, w'. split; [exact Heq|]. split; [exact Hc|].
    split; [|lia].
    destruct b; [split; [exact E | exact Hb]|].
    destruct Hc as [Hnow _]. lia.
Qed.

(** X22.  [wait_for_webui] looks for [ready] anywhere in the output of
    its check, and the word the check prints when nothing answers,
    [not_ready], holds it: with a positive [timeout], a check that went
    through and printed [not_ready] makes [wait_for_webui] answer
    [True] at once. *)
Theorem wait_for_webui_accepts_not_ready timeout w r w1 :
  (0 < timeout)%Z ->
  execute_ssh_command cfg env webui_check_cmd 300 w = (Ret r, w1) ->
  cr_success r = true ->
  contains (py "not_ready") (cr_stdout r) = true ->
  wait_for_webui cfg env timeout w = (Ret true, w1).
Proof.
  intros Htime Hx Hok Hout.
  unfold wait_for_webui, bind at 1, clock.
  cbn [webui_loop]. unfold bind at 1, clock. rewrite Nat.sub_diag.
  replace (Z.of_nat 0 <? timeout)%Z with true
    by (symmetry; apply Z.ltb_lt; lia).
  match goal with
  | |- context [bind (try_except ?body ?handler) _ w] =>
      assert (Hfound : try_except body handler w = (Ret true, w1))
  end.
  { apply try_except_ret. rewrite (bind_ret Hx), Hok.
    rewrite (contains_suffix (py "not_") (py "ready") _ Hout). reflexivity. }
  rewrite (bind_ret Hfound). reflexivity.
Qed.

End WithEnvironment.



Lemma wait_for_webui_outcome_witness :
  exists b w',
    wait_for_webui (sample_cfg None) webui_down 0 fresh = (Ret b, w')
    /\ b = false /\ w' = fresh.
Proof.
  destruct (wait_for_webui_outcome (sample_cfg None) webui_down 0 fresh)
    as (b & w' & Heq & _ & _ & Hnow).
  exists b, w'. split; [exact Heq | apply Hnow; lia].
Defined.

Lemma helpers_need_a_reachable_worker_witness :
  probe_succeeds (sample_cfg None) unreachable (trace fresh) = false
  /\ get_system_info (sample_cfg None) unreachable fresh
     = (Ret [(py "error", py "No running pod available")],
        after unreachable EvProbe 0 fresh)
  /\ create_backup (sample_cfg None) unreachable (py "data/outputs") None fresh
     = (Ret false, after unreachable EvProbe 0 fresh).
Proof.
  split; [reflexivity|].
  destruct (helpers_need_a_reachable_worker (sample_cfg None) unreachable
              fresh eq_refl)
    as (_ & Hbackup & _ & _ & _ & Hinfo & _).
  split; [exact Hinfo | exact (Hbackup (py "data/outputs") None)].
Defined.

Lemma get_system_info_short_gpu_line_witness :
  fst (get_system_info (sample_cfg None) one_word fresh) = Raise index_error.
Proof.
  erewrite (get_system_info_short_gpu_line (sample_cfg None) one_word fresh);
    [ reflexivity
    | vm_compute; reflexivity
    | vm_compute; reflexivity
    | reflexivity
    | vm_compute; reflexivity
    | vm_compute; lia ].
Defined.

Lemma wait_for_webui_accepts_not_ready_witness :
  fst (wait_for_webui (sample_cfg None) webui_down 300 fresh) = Ret true.
Proof.
  erewrite (wait_for_webui_accepts_not_ready (sample_cfg None) webui_down
              300 fresh);
    [ reflexivity
    | lia
    | vm_compute; reflexivity
    | reflexivity
    | vm_compute; reflexivity ].
Defined.

End OperationsFacts.
